(** * walrus-sim: batch orchestration core

    A shallow embedding of [walrus_sim/processor.py] and of the [simulate]
    command of [walrus_sim/cli.py], with the properties of the batch
    orchestration core stated over it.

    Conventions of the embedding.
    - Python exceptions are values of [exn] (the subclasses of [Exception]
      the code can meet) and of [base_exn] (what can leave a top-level
      function: an [Exception], [KeyboardInterrupt] or [typer.Exit]).
    - The external world (spawned processes, the file system's
      willingness to be written, the CPU count) is a [World] of oracles.
      Effects of the program on it are threaded explicitly in a [State]:
      the set of existing files and the log of spawned commands.
    - Python floats are read as exact rationals ([Q]): [x / 10**9] is the
      exact quotient. Rounding of binary floating point is not modelled;
      a property that depends on the value of a sum or a difference is
      stated for amounts that the floats of the code hold exactly (whole
      numbers of tokens of magnitude at most [2^53]).
    - The fields kept in a result are read with their schema types (a
      string for a blob identifier, integers for sizes and costs); a
      property that depends on it is stated for answers that follow the
      schema.
    - The process pool is run as one of its schedules, the tasks one
      after the other in their order; properties are stated so as not
      to depend on the order of the calls.
    - The text of a process's standard output is represented by its JSON
      reading ([json.loads] is the interpreter's parser, not a part of
      this repository). JSON numbers are integers. *)

From Stdlib Require Import ZArith QArith String Ascii List Bool Lia Lqa.
From stdpp Require Import base gmap strings list.

Local Open Scope string_scope.
Local Open Scope Z_scope.

(** ** JSON values and the Python operations the code applies to them *)

#[local] Unset Elimination Schemes.
Inductive json : Type :=
| JNull
| JBool (b : bool)
| JNum (z : Z)
| JStr (s : string)
| JArr (l : list json)
| JObj (kv : list (string * json)).
#[local] Set Elimination Schemes.

(** The subclasses of [Exception] raised by the modelled operations. *)
Inductive exn : Type :=
| JSONDecodeError
| KeyError (k : string)
| IndexError
| TypeError
| ValueError
| AttributeError
| OSError
| RuntimeError (msg : string).

(** What can propagate out of a top-level function. [KeyboardInterrupt]
    and the exit request are not caught by [except Exception]. *)
Inductive base_exn : Type :=
| Exc (e : exn)
| KeyboardInterrupt
| Exit (code : Z).

Inductive result (E A : Type) : Type :=
| Ok (a : A)
| Raise (e : E).
Arguments Ok {E A} a.
Arguments Raise {E A} e.

(** Pure computations that may raise an [Exception]. *)
Definition rbind {E A B} (r : result E A) (k : A -> result E B) : result E B :=
  match r with
  | Ok a => k a
  | Raise e => Raise e
  end.

(** [d[k]] on a dict read from JSON: the last binding of a repeated key
    is the one [json.loads] keeps. *)
Fixpoint dict_get (kv : list (string * json)) (k : string) : option json :=
  match kv with
  | [] => None
  | (k', v) :: rest =>
      match dict_get rest k with
      | Some v' => Some v'
      | None => if String.eqb k' k then Some v else None
      end
  end.

(** [x[0]]: first element of a list, first character of a string;
    a dict read from JSON has string keys only, so key [0] is absent. *)
Definition subscript0 (x : json) : result exn json :=
  match x with
  | JArr [] => Raise IndexError
  | JArr (y :: _) => Ok y
  | JStr EmptyString => Raise IndexError
  | JStr (String c _) => Ok (JStr (String c EmptyString))
  | JObj _ => Raise (KeyError "0")
  | _ => Raise TypeError
  end.

(** [x[k]] with a string key. *)
Definition getitem (x : json) (k : string) : result exn json :=
  match x with
  | JObj kv =>
      match dict_get kv k with
      | Some v => Ok v
      | None => Raise (KeyError k)
      end
  | _ => Raise TypeError
  end.

(** [x.get(k, default)]: only dicts have the method. *)
Definition dict_method_get (x : json) (k : string) : result exn (option json) :=
  match x with
  | JObj kv => Ok (dict_get kv k)
  | _ => Raise AttributeError
  end.

(** Iteration over a JSON value: a list yields its elements, a string
    its characters, a dict its keys. *)
Fixpoint chars (s : string) : list json :=
  match s with
  | EmptyString => []
  | String c s' => JStr (String c EmptyString) :: chars s'
  end.

(** The keys of a dict read from JSON, in the order of iteration: a
    repeated key keeps the place of its first occurrence. *)
Fixpoint dict_keys (kv : list (string * json)) : list string :=
  match kv with
  | [] => []
  | (k, _) :: rest =>
      k :: List.filter (fun k' => negb (String.eqb k k')) (dict_keys rest)
  end.

Definition iter (x : json) : result exn (list json) :=
  match x with
  | JArr l => Ok l
  | JStr s => Ok (chars s)
  | JObj kv => Ok (map JStr (dict_keys kv))
  | _ => Raise TypeError
  end.

(** [a, b = x]. *)
Definition unpack2 (x : json) : result exn (json * json) :=
  rbind (iter x) (fun l =>
    match l with
    | [a; b] => Ok (a, b)
    | _ => Raise ValueError
    end).

(** *** [int(...)] *)

Definition is_digit (c : ascii) : bool :=
  let n := Z.of_N (N_of_ascii c) in (48 <=? n) && (n <=? 57).

Definition digit_val (c : ascii) : Z := Z.of_N (N_of_ascii c) - 48.

(** The blanks [int()] skips around an ASCII numeral: space and the
    controls 9 to 13. *)
Definition is_py_space (c : ascii) : bool :=
  let n := Z.of_N (N_of_ascii c) in
  (n =? 32) || ((9 <=? n) && (n <=? 13)).

Fixpoint lstrip (s : string) : string :=
  match s with
  | String c s' => if is_py_space c then lstrip s' else s
  | EmptyString => EmptyString
  end.

Definition strip (s : string) : string :=
  String.rev (lstrip (String.rev (lstrip s))).

(** Decimal digits, single underscores allowed between two digits. *)
Fixpoint parse_digits (s : string) (acc : Z) (after_digit : bool) : option Z :=
  match s with
  | EmptyString => if after_digit then Some acc else None
  | String c s' =>
      if is_digit c then parse_digits s' (10 * acc + digit_val c) true
      else if Ascii.eqb c "_"%char && after_digit then parse_digits s' acc false
      else None
  end.

(** [int(s)] on a string of ASCII characters. *)
Definition int_of_str (s : string) : result exn Z :=
  let body :=
    match strip s with
    | String "-"%char d => option_map Z.opp (parse_digits d 0 false)
    | String "+"%char d => parse_digits d 0 false
    | d => parse_digits d 0 false
    end in
  match body with
  | Some z => Ok z
  | None => Raise ValueError
  end.

(** [int(x)] on a JSON value. *)
Definition py_int (x : json) : result exn Z :=
  match x with
  | JNum z => Ok z
  | JBool b => Ok (if b then 1 else 0)
  | JStr s => int_of_str s
  | _ => Raise TypeError
  end.

(** Typed reads of the fields the result records keep. The client's
    schema fixes a string for a blob identifier and integers for sizes
    and costs; a value of another type is refused here, where Python
    would carry it on to the aggregation. *)
Definition as_str (x : json) : result exn string :=
  match x with
  | JStr s => Ok s
  | _ => Raise TypeError
  end.

Definition as_int (x : json) : result exn Z :=
  match x with
  | JNum z => Ok z
  | _ => Raise TypeError
  end.

(** ** Paths *)

(** A [pathlib.Path], by its parts: [parent] is [str(p.parent)], and
    [str p] joins it to the name [stem ++ suffix]. *)
Record Path : Type := mkPath {
  parent : string;
  stem : string;
  suffix : string
}.

Definition name (p : Path) : string := stem p ++ suffix p.

(** [str(p)]: a child of [Path(".")] prints as its name alone, and a
    child of the root has a single slash. *)
Definition str (p : Path) : string :=
  if String.eqb (parent p) "." then name p
  else if String.eqb (parent p) "/" then "/" ++ name p
  else parent p ++ "/" ++ name p.

Definition with_suffix (p : Path) (s : string) : Path :=
  {| parent := parent p; stem := stem p; suffix := s |}.

Definition ascii_lower (c : ascii) : ascii :=
  let n := N_of_ascii c in
  if ((65 <=? n) && (n <=? 90))%N then ascii_of_N (n + 32) else c.

Fixpoint lower (s : string) : string :=
  match s with
  | EmptyString => EmptyString
  | String c s' => String (ascii_lower c) (lower s')
  end.

Definition image_suffixes : list string :=
  [".webp"; ".png"; ".jpg"; ".jpeg"; ".gif"].

Definition is_image (p : Path) : bool :=
  existsb (String.eqb (lower (suffix p))) image_suffixes.

(** ** The world and the state of a run *)

Inductive text : Type :=
| Malformed (raw : string)
| WellFormed (j : json).

Record CompletedProcess : Type := {
  returncode : Z;
  stdout : text
}.

Record World : Type := {
  (** [subprocess.run(cmd, capture_output=True, text=True)]; [None] when
      the program cannot be spawned. *)
  subprocess_run : list string -> option CompletedProcess;
  (** whether [open(path, "w")] succeeds *)
  writable : string -> bool;
  (** [multiprocessing.cpu_count()] *)
  cpu_count : Z;
  (** [shutil.which(prog) is not None] *)
  which : string -> bool
}.

Record State : Type := {
  fs : gset string;            (* the files that exist *)
  calls : list (list string)   (* the commands spawned so far, oldest first *)
}.

(** Computations over the state that may raise an [E]. The state
    reached when the exception leaves is kept. *)
Definition M (E A : Type) : Type := State -> result E A * State.

Definition ret {E A} (a : A) : M E A := fun st => (Ok a, st).

Definition raise {E A} (e : E) : M E A := fun st => (Raise e, st).

Definition bind {E A B} (m : M E A) (k : A -> M E B) : M E B :=
  fun st =>
    match m st with
    | (Ok a, st') => k a st'
    | (Raise e, st') => (Raise e, st')
    end.

Declare Scope py_scope.
Delimit Scope py_scope with py.
Notation "x <- m ;; k" := (bind m (fun x => k))
  (at level 100, m at next level, right associativity) : py_scope.
Notation "m ;;; k" := (bind m (fun _ => k))
  (at level 100, right associativity) : py_scope.
Local Open Scope py_scope.

(** A pure computation inside the monad. *)
Definition pure {E A} (r : result E A) : M E A := fun st => (r, st).

(** [try: body except Exception as e: handler(e)]. *)
Definition try_except {E A} (body : M exn A) (handler : exn -> M E A) : M E A :=
  fun st =>
    match body st with
    | (Ok a, st') => (Ok a, st')
    | (Raise e, st') => handler e st'
    end.

(** An [Exception] that nobody catches. *)
Definition uncaught {A} (m : M exn A) : M base_exn A :=
  fun st =>
    match m st with
    | (Ok a, st') => (Ok a, st')
    | (Raise e, st') => (Raise (Exc e), st')
    end.

(** *** File system *)

Definition path_exists {E} (p : string) : M E bool :=
  fun st => (Ok (bool_decide (p ∈ fs st)), st).

Definition unlink {E} (p : string) : M E unit :=
  fun st => (Ok tt, {| fs := fs st ∖ {[p]}; calls := calls st |}).

(** [with open(p, "w") as f: json.dump(data, f, indent=2)]. *)
Definition write_json (w : World) (p : string) : M exn unit :=
  fun st =>
    if writable w p
    then (Ok tt, {| fs := {[p]} ∪ fs st; calls := calls st |})
    else (Raise OSError, st).

(** *** Processes *)

Definition spawn (w : World) (cmd : list string) : M exn CompletedProcess :=
  fun st =>
    let st' := {| fs := fs st; calls := calls st ++ [cmd] |} in
    match subprocess_run w cmd with
    | Some proc => (Ok proc, st')
    | None => (Raise OSError, st')
    end.

Definition json_loads (t : text) : result exn json :=
  match t with
  | WellFormed j => Ok j
  | Malformed _ => Raise JSONDecodeError
  end.

(** ** External client invoker *)

Definition walrus_cmd (image_path : Path) (context epochs : string)
    (share dry_run : bool) : list string :=
  ["walrus"; "store"; str image_path; "--context"; context;
   "--epochs"; epochs; "--json"]
  ++ (if dry_run then ["--dry-run"] else [])
  ++ (if share then ["--share"] else []).

Definition run_walrus_command (w : World) (image_path : Path)
    (context epochs : string) (share dry_run : bool) : M exn json :=
  result <- spawn w (walrus_cmd image_path context epochs share dry_run) ;;
  pure (rbind (json_loads (stdout result)) subscript0).

Definition get_sui_balances (w : World) : M exn json :=
  result <- spawn w ["sui"; "client"; "balance"; "--json"] ;;
  pure (json_loads (stdout result)).

Definition save_json (w : World) (output_path : Path) : M exn unit :=
  write_json w (str output_path).

(** ** Wallet balances *)

(** Declared by the module; the conversions below write [10**9]. *)
Definition FROST_PER_WAL : Z := 1000000000.

(** [metadata.get("symbol") == s] *)
Definition symbol_is (metadata : json) (s : string) : result exn bool :=
  rbind (dict_method_get metadata "symbol") (fun v =>
    Ok match v with
       | Some (JStr s') => String.eqb s' s
       | _ => false
       end).

(** [int(coins[0]["balance"])] *)
Definition coin_balance (coins : json) : result exn Z :=
  rbind (subscript0 coins) (fun c => rbind (getitem c "balance") py_int).

(** The [for token_group in balances[0]] loop of [get_balances], with
    its two running variables. *)
Fixpoint get_balances_loop (groups : list json) (sui_balance wal_balance : Z)
    : result exn (Z * Z) :=
  match groups with
  | [] => Ok (sui_balance, wal_balance)
  | token_group :: rest =>
      rbind (unpack2 token_group) (fun mc =>
        let '(metadata, coins) := mc in
        rbind (symbol_is metadata "SUI") (fun is_sui =>
          if is_sui
          then rbind (coin_balance coins) (fun b =>
                 get_balances_loop rest b wal_balance)
          else rbind (symbol_is metadata "WAL") (fun is_wal =>
                 if is_wal
                 then rbind (coin_balance coins) (fun b =>
                        get_balances_loop rest sui_balance b)
                 else get_balances_loop rest sui_balance wal_balance)))
  end.

(** [n / 10**9] *)
Definition to_tokens (n : Z) : Q := inject_Z n / inject_Z (10 ^ 9).

Definition get_balances (balances : json) : result exn (Q * Q) :=
  rbind (subscript0 balances) (fun b0 =>
  rbind (iter b0) (fun groups =>
  rbind (get_balances_loop groups 0 0) (fun sw =>
    let '(sui_balance, wal_balance) := sw in
    Ok (to_tokens sui_balance, to_tokens wal_balance)))).

(** ** Outcomes and totals *)

(** An entry of [results] on the upload path. *)
Record UploadResult : Type := {
  up_name : string;
  up_blobId : string;
  up_size : Z;
  up_cost : Z;
  up_sharedBlobObject : json
}.

(** An entry of [results] on the simulate path; also the content of a
    state marker. *)
Record SimResult : Type := {
  img_path : string;
  blobId : string;
  unencodedSize : Z;
  encodedSize : Z;
  storageCost : Z;
  encodingType : json
}.

(** An entry of [errors]. *)
Record ItemError : Type := {
  image : string;
  error : exn
}.

Record Wallet : Type := {
  sui_balance : Q;
  wal_balance : Q
}.

Record Totals : Type := {
  unencoded : Z;
  encoded : Z;
  cost : Q;
  totalBlobIds : Z;
  uniqueBlobIds : Z;
  duplicateBlobIds : Z;
  hasDuplicates : bool;
  wallet : option Wallet
}.

(** [len(xs)] *)
Definition len {A} (xs : list A) : Z := Z.of_nat (length xs).

(** [len(set(ids))] *)
Definition len_set (ids : list string) : Z :=
  Z.of_nat (size (list_to_set ids : gset string)).

(** [sum(xs)] *)
Definition py_sum (xs : list Z) : Z := fold_left Z.add xs 0.

(** ** Upload path *)

Record UploadAcc : Type := {
  results : list UploadResult;
  errors : list ItemError;
  wal_available : Q
}.

(** The body of the [try] of the upload loop, for one image: the new
    result and the new value of [wal_available]. *)
Definition upload_try (w : World) (context epochs : string) (share : bool)
    (img_path : Path) (wal_available : Q) : M exn (UploadResult * Q) :=
  dry_info <- run_walrus_command w img_path context epochs share true ;;
  c <- pure (rbind (getitem dry_info "storageCost") py_int) ;;
  let cost := to_tokens c in
  if negb (Qle_bool cost wal_available)   (* cost > wal_available *)
  then raise (RuntimeError ("❌ Not enough WAL balance to store " ++ name img_path))
  else
    real_info <- run_walrus_command w img_path context epochs share false ;;
    save_json w (with_suffix img_path ".stored.json") ;;;
    created <- pure (rbind (getitem real_info "blobStoreResult")
                           (fun r => getitem r "newlyCreated")) ;;
    blob_info <- pure (getitem created "blobObject") ;;
    bid <- pure (rbind (getitem blob_info "blobId") as_str) ;;
    sz <- pure (rbind (getitem blob_info "size") as_int) ;;
    cst <- pure (rbind (getitem created "cost") as_int) ;;
    shared <- pure (dict_method_get created "sharedBlobObject") ;;
    ret ({| up_name := name img_path;
            up_blobId := bid;
            up_size := sz;
            up_cost := cst;
            up_sharedBlobObject := default (JStr "") shared |},
         wal_available - cost)%Q.

(** One iteration of [for img_path in image_paths]. *)
Definition upload_step {E} (w : World) (context epochs : string) (share : bool)
    (acc : UploadAcc) (img_path : Path) : M E UploadAcc :=
  try_except
    (rq <- upload_try w context epochs share img_path (wal_available acc) ;;
     ret {| results := results acc ++ [fst rq];
            errors := errors acc;
            wal_available := snd rq |})
    (fun e =>
     ret {| results := results acc;
            errors := errors acc ++ [{| image := str img_path; error := e |}];
            wal_available := wal_available acc |}).

Fixpoint upload_loop {E} (w : World) (context epochs : string) (share : bool)
    (image_paths : list Path) (acc : UploadAcc) : M E UploadAcc :=
  match image_paths with
  | [] => ret acc
  | img_path :: rest =>
      acc' <- upload_step w context epochs share acc img_path ;;
      upload_loop w context epochs share rest acc'
  end.

(** The [totals] dict of [upload_images]. *)
Definition upload_totals (results : list UploadResult) (sui wal : Q) : Totals :=
  let total_cost := (inject_Z (py_sum (map up_cost results)) / inject_Z (10 ^ 9))%Q in
  let total_size := py_sum (map up_size results) in
  {| unencoded := total_size;
     encoded := total_size;
     cost := total_cost;
     totalBlobIds := len results;
     uniqueBlobIds := len_set (map up_blobId results);
     duplicateBlobIds := len results - len_set (map up_blobId results);
     hasDuplicates := negb (len results =? len_set (map up_blobId results));
     wallet := Some {| sui_balance := sui; wal_balance := wal |} |}.

(** [upload_images]. [files] is the enumeration [path.rglob("*")]. The
    function computes a pool size from [workers] and does not use it. *)
Definition upload_images (w : World) (files : list Path)
    (context epochs : string) (share : bool) (workers : option Z)
    : M base_exn (list UploadResult * list ItemError * Totals) :=
  let image_paths := List.filter is_image files in
  balances <- uncaught (get_sui_balances w) ;;
  sw <- uncaught (pure (get_balances balances)) ;;
  let '(sui_balance, wal_balance) := sw in
  (* not sui_balance or sui_balance <= 0 *)
  if Qeq_bool sui_balance 0 || Qle_bool sui_balance 0
  then raise (Exc (RuntimeError "❌ SUI balance is missing or zero."))
  (* not wal_balance *)
  else if Qeq_bool wal_balance 0
  then raise (Exc (RuntimeError "❌ WAL/FROST balance not found."))
  else
    acc <- upload_loop w context epochs share image_paths
             {| results := []; errors := []; wal_available := wal_balance |} ;;
    ret (results acc, errors acc,
         upload_totals (results acc) sui_balance wal_balance).

(** ** Simulate path *)

(** The dict returned by [simulate_image]: the result record, or the
    record with the keys [image] and [error]. *)
Inductive sim_dict : Type :=
| ResultDict (r : SimResult)
| ErrorDict (e : ItemError).

(** [isinstance(result, dict) and "error" in result] *)
Definition has_error_key (d : sim_dict) : bool :=
  match d with
  | ErrorDict _ => true
  | ResultDict _ => false
  end.

(** The state marker of an image. *)
Definition marker (p : Path) : string := str (with_suffix p ".json").

Definition simulate_image {E} (w : World) (path : Path)
    (context epochs : string) (share : bool) : M E sim_dict :=
  try_except
    (output <- run_walrus_command w path context epochs share true ;;
     blob <- pure (match output with
                   | JArr _ => subscript0 output
                   | _ => Ok output
                   end) ;;
     bid <- pure (rbind (getitem blob "blobId") as_str) ;;
     usz <- pure (rbind (getitem blob "unencodedSize") as_int) ;;
     esz <- pure (rbind (getitem blob "encodedSize") as_int) ;;
     cst <- pure (rbind (getitem blob "storageCost") as_int) ;;
     enc <- pure (dict_method_get blob "encodingType") ;;
     write_json w (marker path) ;;;
     ret (ResultDict {| img_path := str path;
                        blobId := bid;
                        unencodedSize := usz;
                        encodedSize := esz;
                        storageCost := cst;
                        encodingType := default (JStr "") enc |}))
    (fun e => ret (ErrorDict {| image := str path; error := e |})).

(** [for p in json_paths: if p.exists(): p.unlink()] *)
Fixpoint unlink_existing {E} (ps : list string) : M E unit :=
  match ps with
  | [] => ret tt
  | p :: rest =>
      e <- path_exists p ;;
      (if e : bool then unlink p else ret tt) ;;;
      unlink_existing rest
  end.

(** The selection loop that fills [tasks]. *)
Fixpoint select_tasks {E} (resume : bool) (image_paths : list Path)
    : M E (list Path) :=
  match image_paths with
  | [] => ret []
  | img_path :: rest =>
      e <- path_exists (marker img_path) ;;
      if resume && negb e then select_tasks resume rest
      else if negb resume && e then select_tasks resume rest
      else (tasks <- select_tasks resume rest ;; ret (img_path :: tasks))
  end.

(** [executor.map(simulate_image_wrapper, args)]: one call per task,
    outcomes in the order of the tasks. A worker only adds the marker
    of its own image, so the set of files the workers leave does not
    depend on their interleaving and the calls are threaded one after
    the other; the order in which the log shows them is that of this
    one schedule. *)
Fixpoint executor_map {E} (w : World) (context epochs : string) (share : bool)
    (tasks : list Path) : M E (list sim_dict) :=
  match tasks with
  | [] => ret []
  | p :: rest =>
      d <- simulate_image w p context epochs share ;;
      ds <- executor_map w context epochs share rest ;;
      ret (d :: ds)
  end.

(** The loop over the outcomes, filling [results] and [errors]. *)
Fixpoint collect (ds : list sim_dict) (results : list SimResult)
    (errors : list ItemError) : list SimResult * list ItemError :=
  match ds with
  | [] => (results, errors)
  | ErrorDict e :: rest => collect rest results (errors ++ [e])
  | ResultDict r :: rest => collect rest (results ++ [r]) errors
  end.

(** The [totals] dict of [process_images]. *)
Definition process_totals (verify : bool) (results : list SimResult) : Totals :=
  let duplicates :=
    if verify
    then let blob_ids := map blobId results in len blob_ids - len_set blob_ids
    else 0 in
  {| unencoded := py_sum (map unencodedSize results);
     encoded := py_sum (map encodedSize results);
     cost := inject_Z (py_sum (map storageCost results));
     totalBlobIds := len results;
     uniqueBlobIds := len_set (map blobId results);
     duplicateBlobIds := duplicates;
     hasDuplicates := 0 <? duplicates;
     wallet := None |}.

(** [workers or cpu_count()] *)
Definition max_workers (w : World) (workers : option Z) : Z :=
  match workers with
  | Some n => if n =? 0 then cpu_count w else n
  | None => cpu_count w
  end.

(** [process_images]. [files] is the enumeration [path.rglob("*")].
    [sigint], when given, is the number of tasks whose outcome had been
    delivered when the interrupt signal reached the coordinating
    process; the pool is then left with [KeyboardInterrupt]. The tasks
    still in flight at that moment, which a real pool may let finish,
    are taken not to have run. The pool refuses a size that is not
    positive. *)
Definition process_images (w : World) (files : list Path)
    (context epochs : string) (share resume fresh : bool)
    (workers : option Z) (verify clean : bool) (sigint : option nat)
    : M base_exn (list SimResult * list ItemError * Totals) :=
  let image_paths := List.filter is_image files in
  let json_paths : gset string := list_to_set (map marker image_paths) in
  (if fresh then unlink_existing (elements json_paths) else ret tt) ;;;
  tasks <- select_tasks resume image_paths ;;
  if max_workers w workers <=? 0 then raise (Exc ValueError)
  else
    ds <- match sigint with
          | None => executor_map w context epochs share tasks
          | Some k =>
              executor_map w context epochs share (firstn k tasks) ;;;
              raise KeyboardInterrupt
          end ;;
    let '(results, errors) := collect ds [] [] in
    (if clean then unlink_existing (elements json_paths) else ret tt) ;;;
    ret (results, errors, process_totals verify results).

(** ** The [simulate] command *)

Record Metadata : Type := {
  md_context : string;
  md_epochs : string;
  md_share : bool;
  md_verify : bool;
  md_clean : bool;
  md_workers : option Z;
  md_interrupted : bool
}.

(** The arguments handed to [generate_summary_files]. *)
Record Report : Type := {
  rp_results : list SimResult;
  rp_errors : list ItemError;
  rp_totals : Totals;
  rp_metadata : option Metadata
}.

Definition ensure_walrus_installed (w : World) : M base_exn unit :=
  if which w "walrus" then ret tt else raise (Exit 1).

Definition ensure_sui_installed (w : World) : M base_exn unit :=
  if which w "sui" then ret tt else raise (Exit 1).

(** [try: ... except KeyboardInterrupt: handler] *)
Definition except_KeyboardInterrupt {A} (body : M base_exn A)
    (handler : M base_exn A) : M base_exn (A * bool) :=
  fun st =>
    match body st with
    | (Ok a, st') => (Ok (a, false), st')
    | (Raise KeyboardInterrupt, st') =>
        match handler st' with
        | (Ok a, st'') => (Ok (a, true), st'')
        | (Raise e, st'') => (Raise e, st'')
        end
    | (Raise e, st') => (Raise e, st')
    end.

(** [simulate]; the second component of the pair that [except_KeyboardInterrupt]
    returns is the variable [interrupted]. [sigint] is the signal met by
    the first call of [process_images], [sigint'] the one met by the
    second. The start time and the duration are left out of the metadata. *)
Definition simulate (w : World) (files : list Path)
    (context epochs : string) (share resume fresh : bool)
    (workers : option Z) (verify clean log : bool)
    (sigint sigint' : option nat) : M base_exn Report :=
  ensure_walrus_installed w ;;;
  ensure_sui_installed w ;;;
  ri <- except_KeyboardInterrupt
          (process_images w files context epochs share resume fresh
             workers verify clean sigint)
          (process_images w files context epochs share false false
             workers verify false sigint') ;;
  let '(results, errors, totals, interrupted) := ri in
  let metadata :=
    {| md_context := context; md_epochs := epochs; md_share := share;
       md_verify := verify; md_clean := clean; md_workers := workers;
       md_interrupted := interrupted |} in
  ret {| rp_results := results; rp_errors := errors; rp_totals := totals;
         rp_metadata := if log then Some metadata else None |}.

(** ** The [upload] and [check] commands *)

(** [upload]: what it hands to [generate_summary_files]; the metadata
    argument is [None]. *)
Definition upload (w : World) (files : list Path)
    (context epochs : string) (share : bool) (workers : option Z)
    : M base_exn (list UploadResult * list ItemError * Totals * option Metadata) :=
  ensure_walrus_installed w ;;;
  ensure_sui_installed w ;;;
  r <- upload_images w files context epochs share workers ;;
  let '(results, errors, totals) := r in
  ret (results, errors, totals, None).

(** [utils check]; the two messages it prints are left out. *)
Definition check (w : World) : M base_exn unit :=
  ensure_walrus_installed w ;;;
  ensure_sui_installed w.

(** * Notions used to state the properties *)

(** ** Runs and selections *)

(** [m] started in [st] returns [a] and leaves [st']. *)
Definition returns {E A} (m : M E A) (st : State) (a : A) (st' : State) : Prop :=
  m st = (Ok a, st').

(** The number of distinct elements of a list. *)
Definition distinct (ids : list string) : nat := length (remove_dups ids).

(** The selection of the work, as a filter over the candidates. *)
Definition selected (resume : bool) (files_now : gset string) (p : Path) : bool :=
  if resume then bool_decide (marker p ∈ files_now)
  else negb (bool_decide (marker p ∈ files_now)).

(** A state with no file and no command spawned. *)
Definition no_state : State := {| fs := ∅; calls := [] |}.

(** The dict [simulate_image] returns for an image. It is decided by
    the world alone: the function reads nothing of the state. *)
Definition outcome_of (w : World) (p : Path) (context epochs : string)
    (share : bool) : sim_dict :=
  match fst (@simulate_image Empty_set w p context epochs share no_state) with
  | Ok d => d
  | Raise e => match e with end
  end.

(** The markers written by a batch of tasks. *)
Definition written (w : World) (context epochs : string) (share : bool)
    (tasks : list Path) : gset string :=
  list_to_set
    (map marker
       (List.filter
          (fun p => negb (has_error_key (outcome_of w p context epochs share)))
          tasks)).

(** The state in which the work is selected. *)
Definition after_wipe (fresh : bool) (image_paths : list Path) (st : State) : State :=
  if fresh
  then {| fs := fs st ∖ list_to_set (map marker image_paths); calls := calls st |}
  else st.

(** The work [process_images] selects in state [st]. *)
Definition tasks_of (files : list Path) (resume fresh : bool) (st : State)
    : list Path :=
  let image_paths := List.filter is_image files in
  List.filter (selected resume (fs (after_wipe fresh image_paths st))) image_paths.

(** ** Outcomes and admission *)

(** The items of [xs] whose flag is [b]. *)
Fixpoint pick {A} (b : bool) (flags : list bool) (xs : list A) : list A :=
  match flags, xs with
  | f :: flags', x :: xs' =>
      if Bool.eqb f b then x :: pick b flags' xs' else pick b flags' xs'
  | _, _ => []
  end.

(** Every item has one entry, in the results when its flag is set and
    in the errors when it is not. [key_r] and [key_e] are what a result
    and an error record of their item. *)
Definition one_outcome_each (result_keys error_keys : list string)
    (items : list Path) (key_r key_e : Path -> string) : Prop :=
  exists flags : list bool,
    length flags = length items /\
    result_keys = map key_r (pick true flags items) /\
    error_keys = map key_e (pick false flags items).

(** The two commands the upload loop spawns for an image. *)
Definition dry_cmd (context epochs : string) (share : bool) (p : Path)
    : list string :=
  walrus_cmd p context epochs share true.

Definition real_cmd (context epochs : string) (share : bool) (p : Path)
    : list string :=
  walrus_cmd p context epochs share false.

(** The cost estimate the dry run of an image gives, in FROST. *)
Definition dry_cost (w : World) (context epochs : string) (share : bool)
    (p : Path) : result exn Z :=
  match subprocess_run w (dry_cmd context epochs share p) with
  | None => Raise OSError
  | Some proc =>
      rbind (rbind (json_loads (stdout proc)) subscript0) (fun dry_info =>
        rbind (getitem dry_info "storageCost") py_int)
  end.

(** The test that lets the real store be attempted. *)
Definition admits (w : World) (context epochs : string) (share : bool)
    (p : Path) (available : Q) : bool :=
  match dry_cost w context epochs share p with
  | Ok z => Qle_bool (to_tokens z) available
  | Raise _ => false
  end.

(** The estimate of an image, 0 when its dry run gives none. *)
Definition estimate (w : World) (context epochs : string) (share : bool)
    (p : Path) : Z :=
  match dry_cost w context epochs share p with
  | Ok z => z
  | Raise _ => 0
  end.

(** The cumulative estimate of a sequence of images, in FROST. *)
Definition total (w : World) (context epochs : string) (share : bool)
    (ps : list Path) : Z :=
  foldr Z.add 0 (map (estimate w context epochs share) ps).

(** Whether [x[0]] is defined on a JSON value. *)
Definition indexable (j : json) : bool :=
  match j with
  | JArr (_ :: _) => true
  | JStr (String _ _) => true
  | _ => false
  end.

(** ** Worlds used in the examples *)

(** What the client prints for a dry run, for a store, and what the
    wallet prints. *)
Definition blob_json (id : string) (usz esz cst : Z) : json :=
  JObj [("blobId", JStr id); ("unencodedSize", JNum usz);
        ("encodedSize", JNum esz); ("storageCost", JNum cst)].

Definition stored_json (id : string) (sz cst : Z) : json :=
  JObj [("blobStoreResult",
         JObj [("newlyCreated",
                JObj [("blobObject", JObj [("blobId", JStr id); ("size", JNum sz)]);
                      ("cost", JNum cst)])])].

Definition balance_json (sui wal : string) : json :=
  JArr [JArr [JArr [JObj [("symbol", JStr "SUI")];
                    JArr [JObj [("balance", JStr sui)]]];
              JArr [JObj [("symbol", JStr "WAL")];
                    JArr [JObj [("balance", JStr wal)]]]]].

Definition exited (code : Z) (j : json) : CompletedProcess :=
  {| returncode := code; stdout := WellFormed j |}.

Fixpoint table_run (tbl : list (list string * CompletedProcess))
    (cmd : list string) : option CompletedProcess :=
  match tbl with
  | [] => None
  | (c, p) :: rest => if bool_decide (c = cmd) then Some p else table_run rest cmd
  end.

Definition table_world (tbl : list (list string * CompletedProcess)) : World :=
  {| subprocess_run := table_run tbl;
     writable := fun _ => true;
     cpu_count := 4;
     which := fun _ => true |}.

Definition img (n : string) : Path :=
  {| parent := "images"; stem := n; suffix := ".png" |}.

Definition balance_cmd : list string := ["sui"; "client"; "balance"; "--json"].

(** An image whose dry run announces blob [id] and cost [cst], and whose
    store succeeds with the same blob. *)
Definition image_rows (n id : string) (cst : Z)
    : list (list string * CompletedProcess) :=
  [ (walrus_cmd (img n) "mainnet" "max" false true,
     exited 0 (JArr [blob_json id 10 20 cst]));
    (walrus_cmd (img n) "mainnet" "max" false false,
     exited 0 (JArr [stored_json id 10 cst])) ].

(** 1 SUI and 3 WAL; image [a] costs 5 WAL, image [b] 1 WAL. *)
Definition world_5_1 : World :=
  table_world
    ((balance_cmd, exited 0 (balance_json "1000000000" "3000000000"))
     :: image_rows "a" "A" 5000000000 ++ image_rows "b" "B" 1000000000).

(** 1 SUI and 9 WAL; four images of 1 WAL with blobs A, A, B, C. *)
Definition world_dup : World :=
  table_world
    ((balance_cmd, exited 0 (balance_json "1000000000" "9000000000"))
     :: image_rows "a" "A" 1000000000 ++ image_rows "b" "A" 1000000000
     ++ image_rows "c" "B" 1000000000 ++ image_rows "d" "C" 1000000000).

Definition files_ab : list Path := [img "a"; img "b"].
Definition files_abcd : list Path := [img "a"; img "b"; img "c"; img "d"].

(** 1 SUI and 3 WAL; image [a] is accepted by the client, image [b] is
    refused: the client exits with status 1 and prints no JSON. *)
Definition world_b_refused : World :=
  table_world
    ((balance_cmd, exited 0 (balance_json "1000000000" "3000000000"))
     :: image_rows "a" "A" 1000000000
     ++ [ (walrus_cmd (img "b") "mainnet" "max" false true,
           {| returncode := 1; stdout := Malformed "" |}) ]).

(** 1 SUI and no WAL at all; image [a] is estimated at 1 WAL. *)
Definition world_zero_wal : World :=
  table_world
    ((balance_cmd, exited 0 (balance_json "1000000000" "0"))
     :: image_rows "a" "A" 1000000000).

(** The client exits with status 1 and still prints a record. *)
Definition world_exit_1 : World :=
  table_world
    [ (walrus_cmd (img "a") "mainnet" "max" false true,
       exited 1 (JArr [blob_json "A" 10 20 1000000000])) ].

(** The client prints a JSON string. *)
Definition world_prints_string : World :=
  table_world
    [ (walrus_cmd (img "a") "mainnet" "max" false true, exited 0 (JStr "ab")) ].

(** ** Answers that follow the client's schema *)

(** The record [blob] that [simulate_image] reads its fields from, when
    the call of the client gets that far. *)
Definition dry_answer (w : World) (context epochs : string) (share : bool)
    (p : Path) : option json :=
  match subprocess_run w (dry_cmd context epochs share p) with
  | None => None
  | Some proc =>
      match rbind (rbind (json_loads (stdout proc)) subscript0) (fun output =>
              match output with
              | JArr _ => subscript0 output
              | _ => Ok output
              end) with
      | Ok blob => Some blob
      | Raise _ => None
      end
  end.

(** The field [k] of [blob], when there is one, passes [check]. *)
Definition field_passes (blob : json) (k : string) (check : json -> bool) : bool :=
  match getitem blob k with
  | Ok v => check v
  | Raise _ => true
  end.

Definition is_JStr (v : json) : bool :=
  match v with JStr _ => true | _ => false end.

Definition is_JNum (v : json) : bool :=
  match v with JNum _ => true | _ => false end.

(** The fields a dry run answers with have the types of the client's
    schema: a string for the blob identifier, integers for the sizes and
    the cost. Outside the schema the code keeps the value it read and
    its aggregation ([sum], [set]) may raise [TypeError], which the typed
    reads [as_str] and [as_int] do not show. *)
Definition follows_schema (blob : json) : bool :=
  field_passes blob "blobId" is_JStr
  && field_passes blob "unencodedSize" is_JNum
  && field_passes blob "encodedSize" is_JNum
  && field_passes blob "storageCost" is_JNum.

(** [int()] refuses a string of more than 4300 digits (the default
    limit of the interpreter); a shorter one is within it. *)
Definition short_numeral (b : json) : bool :=
  match b with
  | JStr s => (String.length s <=? 4300)%nat
  | _ => true
  end.




(** ** Notions for the further properties *)

(** The markers of the candidates of a directory listing. *)
Definition markers_of (files : list Path) : gset string :=
  list_to_set (map marker (List.filter is_image files)).

(** Where the upload loop saves the answer of a store. *)
Definition stored_path (p : Path) : string := str (with_suffix p ".stored.json").

(** The commands of an upload loop over [items], given for each item
    whether its store was attempted. *)
Fixpoint call_trace (context epochs : string) (share : bool)
    (items : list Path) (attempted : list bool) : list (list string) :=
  match items, attempted with
  | p :: items', a :: attempted' =>
      dry_cmd context epochs share p
      :: (if a then [real_cmd context epochs share p] else [])
      ++ call_trace context epochs share items' attempted'
  | _, _ => []
  end.

(** A store that the network answers with [alreadyCertified]: the
    record has no [newlyCreated] entry. 1 SUI and 3 WAL; the estimate
    of image [a] is 1 WAL. *)
Definition world_already_certified : World :=
  table_world
    [ (balance_cmd, exited 0 (balance_json "1000000000" "3000000000"));
      (walrus_cmd (img "a") "mainnet" "max" false true,
       exited 0 (JArr [blob_json "A" 10 20 1000000000]));
      (walrus_cmd (img "a") "mainnet" "max" false false,
       exited 0 (JArr [JObj [("blobStoreResult",
                              JObj [("alreadyCertified",
                                     JObj [("blobId", JStr "A")])])]])) ].

(** The wallet reports 1 SUI and a WAL balance of -5 FROST; the estimate
    of image [a] is 1 WAL. *)
Definition world_negative_wal : World :=
  table_world
    ((balance_cmd, exited 0 (balance_json "1000000000" "-5"))
     :: image_rows "a" "A" 1000000000).

(** No program can be spawned and none is installed. *)
Definition world_nothing_installed : World :=
  {| subprocess_run := fun _ => None;
     writable := fun _ => true;
     cpu_count := 4;
     which := fun _ => false |}.

(** * Properties *)

Local Open Scope list_scope.

Example int_of_str_ex :
  int_of_str " 1_000 " = Ok 1000 /\ int_of_str "-42" = Ok (-42) /\
  int_of_str "" = Raise ValueError /\ int_of_str "1__0" = Raise ValueError /\
  int_of_str "12a" = Raise ValueError.
Proof. repeat split; reflexivity. Qed.

(** ** Reasoning about runs *)

Ltac monad_unfold :=
  unfold returns, bind, ret, raise, pure, try_except, uncaught,
         path_exists, unlink in *.

Lemma len_set_distinct (ids : list string) :
  len_set ids = Z.of_nat (distinct ids).
Proof.
  unfold len_set, distinct. f_equal.
  rewrite <- (size_list_to_set (C := gset string) (remove_dups ids))
    by apply NoDup_remove_dups.
  f_equal. apply set_eq. intros x.
  rewrite !elem_of_list_to_set. symmetry. apply elem_of_remove_dups.
Qed.

Lemma distinct_le (ids : list string) : (distinct ids <= length ids)%nat.
Proof.
  unfold distinct. induction ids as [|x ids IH]; simpl; [lia|].
  case_decide; simpl; lia.
Qed.

Lemma distinct_eq_NoDup (ids : list string) :
  distinct ids = length ids <-> NoDup ids.
Proof.
  unfold distinct. induction ids as [|x ids IH]; simpl.
  - split; [constructor | done].
  - pose proof (distinct_le ids) as Hle. unfold distinct in Hle.
    case_decide as Hx.
    + split; [lia | intros Hnd; inversion Hnd; done].
    + simpl. rewrite NoDup_cons. split.
      * intros Heq. split; [done | apply IH; lia].
      * intros [_ Hnd]. f_equal. by apply IH.
Qed.

Lemma len_set_le (ids : list string) : len_set ids <= len ids.
Proof. rewrite len_set_distinct. pose proof (distinct_le ids). unfold len. lia. Qed.

Lemma len_set_lt (ids : list string) : len_set ids < len ids <-> ~ NoDup ids.
Proof.
  rewrite len_set_distinct, <- distinct_eq_NoDup.
  pose proof (distinct_le ids). unfold len. lia.
Qed.

Lemma len_map {A B} (f : A -> B) (xs : list A) : len (map f xs) = len xs.
Proof. unfold len. by rewrite length_map. Qed.

(** What [upload_images] returns when it returns: the lists the loop
    ends with and the totals computed from them. *)
Lemma upload_images_inv w files context epochs share workers st rs es t st' :
  returns (upload_images w files context epochs share workers) st (rs, es, t) st' ->
  exists balances sui wal st1 acc,
    returns (uncaught (get_sui_balances w)) st balances st1 /\
    get_balances balances = Ok (sui, wal) /\
    Qeq_bool sui 0 || Qle_bool sui 0 = false /\
    Qeq_bool wal 0 = false /\
    returns (E := base_exn)
      (upload_loop w context epochs share (List.filter is_image files)
         {| results := []; errors := []; wal_available := wal |}) st1 acc st' /\
    rs = results acc /\ es = errors acc /\
    t = upload_totals (results acc) sui wal.
Proof.
  unfold upload_images, returns. intros H.
  unfold bind in H at 1.
  destruct (uncaught (get_sui_balances w) st) as [[balances|e] st1] eqn:Hb;
    [|discriminate].
  unfold bind in H at 1. unfold uncaught at 1, pure in H.
  destruct (get_balances balances) as [[sui wal]|e] eqn:Hg; [|discriminate].
  destruct (Qeq_bool sui 0 || Qle_bool sui 0) eqn:Hs; [discriminate|].
  destruct (Qeq_bool wal 0) eqn:Hw; [discriminate|].
  unfold bind in H.
  destruct (upload_loop _ _ _ _ _ _ st1) as [[acc|e] st2] eqn:Hl; [|discriminate].
  unfold ret in H. injection H as <- <- <- <-.
  exists balances, sui, wal, st1, acc. done.
Qed.

(** [unlink_existing] and [select_tasks] never raise. *)
Lemma unlink_existing_fs {E} (ps : list string) (st : State) :
  @unlink_existing E ps st =
    (Ok tt, {| fs := fs st ∖ list_to_set ps; calls := calls st |}).
Proof.
  revert st. induction ps as [|p ps IH]; intros st; simpl.
  - unfold ret. destruct st as [f c]. simpl. do 2 f_equal.
    symmetry. apply difference_empty_L.
  - monad_unfold. case_bool_decide as Hp; simpl; rewrite IH; simpl.
    + do 2 f_equal. apply difference_difference_l_L.
    + do 2 f_equal. apply set_eq. intros x.
      rewrite !elem_of_difference, elem_of_union, elem_of_singleton.
      split; [|tauto]. intros [Hx Hn]. split; [done|].
      intros [->|Hin]; tauto.
Qed.

Lemma select_tasks_filter {E} resume (image_paths : list Path) (st : State) :
  @select_tasks E resume image_paths st =
    (Ok (List.filter (selected resume (fs st)) image_paths), st).
Proof.
  induction image_paths as [|p ps IH]; simpl; [done|].
  monad_unfold. simpl. unfold selected at 1.
  destruct resume, (bool_decide (marker p ∈ fs st)); simpl; by rewrite IH.
Qed.

(** ** The simulate path, run *)

Lemma simulate_image_run {E} w p context epochs share st :
  @simulate_image E w p context epochs share st =
    (Ok (outcome_of w p context epochs share),
     {| fs := if has_error_key (outcome_of w p context epochs share)
              then fs st else {[marker p]} ∪ fs st;
        calls := calls st ++ [walrus_cmd p context epochs share true] |}).
Proof.
  unfold outcome_of, simulate_image, run_walrus_command, spawn, write_json.
  monad_unfold. simpl.
  destruct (subprocess_run w _) as [proc|]; simpl; [|done].
  destruct (rbind (json_loads (stdout proc)) subscript0) as [output|]; simpl; [|done].
  destruct (match output with JArr _ => subscript0 output | _ => Ok output end)
    as [blob|]; simpl; [|done].
  destruct (rbind (getitem blob "blobId") as_str); simpl; [|done].
  destruct (rbind (getitem blob "unencodedSize") as_int); simpl; [|done].
  destruct (rbind (getitem blob "encodedSize") as_int); simpl; [|done].
  destruct (rbind (getitem blob "storageCost") as_int); simpl; [|done].
  destruct (dict_method_get blob "encodingType"); simpl; [|done].
  destruct (writable w (marker p)); simpl; done.
Qed.

Lemma executor_map_run {E} w context epochs share tasks st :
  @executor_map E w context epochs share tasks st =
    (Ok (map (fun p => outcome_of w p context epochs share) tasks),
     {| fs := written w context epochs share tasks ∪ fs st;
        calls := calls st
                 ++ map (fun p => walrus_cmd p context epochs share true) tasks |}).
Proof.
  revert st. induction tasks as [|p tasks IH]; intros st; simpl.
  - unfold ret, written. destruct st; simpl. rewrite app_nil_r.
    do 2 f_equal. symmetry. apply (left_id_L ∅ (∪)).
  - unfold bind at 1. rewrite simulate_image_run.
    unfold bind at 1. rewrite IH. unfold ret. simpl.
    rewrite <- app_assoc. simpl. do 2 f_equal.
    unfold written. simpl.
    destruct (has_error_key (outcome_of w p context epochs share)); simpl.
    + done.
    + apply set_eq. intros x. rewrite !elem_of_union. tauto.
Qed.

Lemma collect_spec ds rs es :
  collect ds rs es =
    (rs ++ omap (fun d => match d with ResultDict r => Some r | _ => None end) ds,
     es ++ omap (fun d => match d with ErrorDict e => Some e | _ => None end) ds).
Proof.
  revert rs es. induction ds as [|[r|e] ds IH]; intros rs es; simpl.
  - by rewrite !app_nil_r.
  - rewrite IH. by rewrite <- app_assoc.
  - rewrite IH. by rewrite <- app_assoc.
Qed.

Lemma list_to_set_elements_gset (X : gset string) :
  list_to_set (elements X) = X.
Proof. apply set_eq. intros x. by rewrite elem_of_list_to_set, elem_of_elements. Qed.

(** An uninterrupted [process_images] with a valid pool size, in one
    equation. *)
Lemma process_images_run w files context epochs share resume fresh workers
    verify clean st :
  0 < max_workers w workers ->
  let image_paths := List.filter is_image files in
  let tasks := tasks_of files resume fresh st in
  let ds := map (fun p => outcome_of w p context epochs share) tasks in
  let st1 := after_wipe fresh image_paths st in
  let fs2 := written w context epochs share tasks ∪ fs st1 in
  process_images w files context epochs share resume fresh workers verify clean
    None st =
    (Ok (fst (collect ds [] []), snd (collect ds [] []),
         process_totals verify (fst (collect ds [] []))),
     {| fs := if clean then fs2 ∖ list_to_set (map marker image_paths) else fs2;
        calls := calls st
                 ++ map (fun p => walrus_cmd p context epochs share true) tasks |}).
Proof.
  intros Hw. simpl. unfold process_images, tasks_of.
  destruct (max_workers w workers <=? 0) eqn:Hle; [lia|].
  set (image_paths := List.filter is_image files).
  unfold bind at 1.
  assert ((if fresh
           then @unlink_existing base_exn
                  (elements (list_to_set (map marker image_paths) : gset string))
           else ret tt) st = (Ok tt, after_wipe fresh image_paths st)) as ->.
  { unfold after_wipe. destruct fresh; [|done].
    rewrite unlink_existing_fs. by rewrite list_to_set_elements_gset. }
  unfold bind at 1. rewrite select_tasks_filter.
  unfold bind at 1. rewrite executor_map_run.
  destruct (collect _ [] []) as [rs es] eqn:Hc. simpl.
  unfold bind. destruct clean.
  - rewrite unlink_existing_fs. rewrite list_to_set_elements_gset.
    unfold ret. simpl. destruct fresh; done.
  - unfold ret. simpl. destruct fresh; done.
Qed.

Lemma process_images_inv w files context epochs share resume fresh workers
    verify clean st rs es t st' :
  returns (process_images w files context epochs share resume fresh workers
             verify clean None) st (rs, es, t) st' ->
  0 < max_workers w workers /\ t = process_totals verify rs.
Proof.
  intros H.
  destruct (decide (0 < max_workers w workers)) as [Hw|Hw].
  - split; [done|]. unfold returns in H.
    rewrite (process_images_run _ _ _ _ _ _ _ _ _ _ _ Hw) in H.
    simpl in H. by simplify_eq.
  - exfalso. unfold returns, process_images in H.
    destruct (max_workers w workers <=? 0) eqn:Hle; [|lia].
    monad_unfold. repeat case_match; simplify_eq.
Qed.

(** ** Duplicate accounting (C7, C9) and byte totals (C10) *)

(** C7. In the totals of both paths the duplicate count is the number of
    results minus the number of distinct blob identifiers, and
    [hasDuplicates] holds exactly when that count is positive; on the
    simulate path this is so when [verify] is set, and without [verify]
    the count is 0 and the flag false whatever the results; on the upload
    path it is always computed. For the blob identifiers A, A, B, C the
    count is 1, the unique count 3 and the flag true. *)
Theorem duplicate_accounting :
  (forall w files context epochs share workers st rs es t st',
     returns (upload_images w files context epochs share workers) st (rs, es, t) st' ->
     duplicateBlobIds t = len rs - Z.of_nat (distinct (map up_blobId rs)) /\
     (hasDuplicates t = true <-> 0 < duplicateBlobIds t)) /\
  (forall w files context epochs share resume fresh workers verify clean
          st rs es t st',
     returns (process_images w files context epochs share resume fresh workers
                verify clean None) st (rs, es, t) st' ->
     (verify = true ->
        duplicateBlobIds t = len rs - Z.of_nat (distinct (map blobId rs)) /\
        (hasDuplicates t = true <-> 0 < duplicateBlobIds t)) /\
     (verify = false -> duplicateBlobIds t = 0 /\ hasDuplicates t = false)) /\
  (exists rs es t st',
     returns (upload_images world_dup files_abcd "mainnet" "max" false None)
       no_state (rs, es, t) st' /\
     map up_blobId rs = ["A"; "A"; "B"; "C"] /\
     duplicateBlobIds t = 1 /\ uniqueBlobIds t = 3 /\ hasDuplicates t = true).
Proof.
  split; [|split].
  - intros * H. apply upload_images_inv in H
      as (balances & sui & wal & st1 & acc & _ & _ & _ & _ & _ & -> & _ & ->).
    simpl. rewrite <- len_set_distinct. split; [done|].
    pose proof (len_set_le (map up_blobId (results acc))) as Hle.
    rewrite len_map in Hle. rewrite negb_true_iff, Z.eqb_neq. lia.
  - intros * H. apply process_images_inv in H as [_ ->].
    split.
    + intros ->. simpl. rewrite <- len_set_distinct, len_map.
      split; [done|]. apply Z.ltb_lt.
    + intros ->. simpl. done.
  - do 4 eexists. split; [vm_compute; reflexivity|].
    vm_compute. done.
Qed.

Lemma duplicate_accounting_witness :
  exists rs es t st',
    returns (process_images world_dup files_abcd "mainnet" "max" false false false
               None true false None) no_state (rs, es, t) st' /\
    duplicateBlobIds t = len rs - Z.of_nat (distinct (map blobId rs)) /\
    (hasDuplicates t = true <-> 0 < duplicateBlobIds t).
Proof.
  do 4 eexists. split; [vm_compute; reflexivity|].
  edestruct (proj1 (proj2 duplicate_accounting) world_dup files_abcd
               "mainnet" "max" false false false None true false no_state)
    as [Hverify _]; [vm_compute; reflexivity|].
  apply Hverify. reflexivity.
Defined.

(** C9. On the simulate path [uniqueBlobIds] is the number of distinct
    blob identifiers of the results whether or not [verify] is set; so
    when identifiers repeat and [verify] is off the totals disagree:
    [totalBlobIds - uniqueBlobIds] is positive, [duplicateBlobIds] is 0
    and [hasDuplicates] is false. *)
Theorem unique_count_not_gated w files context epochs share resume fresh
    workers verify clean st rs es t st' :
  returns (process_images w files context epochs share resume fresh workers
             verify clean None) st (rs, es, t) st' ->
  uniqueBlobIds t = Z.of_nat (distinct (map blobId rs)) /\
  (verify = false -> ~ NoDup (map blobId rs) ->
   0 < totalBlobIds t - uniqueBlobIds t /\
   duplicateBlobIds t = 0 /\ hasDuplicates t = false).
Proof.
  intros H. apply process_images_inv in H as [_ ->]. simpl.
  split; [apply len_set_distinct|].
  intros -> Hdup. simpl. split; [|done].
  apply len_set_lt in Hdup. rewrite len_map in Hdup. lia.
Qed.

Lemma unique_count_not_gated_witness :
  exists rs es t st',
    returns (process_images world_dup files_abcd "mainnet" "max" false false false
               None false false None) no_state (rs, es, t) st' /\
    uniqueBlobIds t = 3 /\ totalBlobIds t = 4 /\
    duplicateBlobIds t = 0 /\ hasDuplicates t = false.
Proof.
  do 4 eexists. split; [vm_compute; reflexivity|].
  edestruct (unique_count_not_gated world_dup files_abcd "mainnet" "max"
               false false false None false false no_state)
    as [Hu Hoff]; [vm_compute; reflexivity|].
  destruct Hoff as (_ & Hd & Hh); [reflexivity | |].
  - rewrite <- distinct_eq_NoDup. vm_compute. lia.
  - split; [rewrite Hu; reflexivity|]. split; [reflexivity|]. split; assumption.
Defined.

(** C10. On the upload path the encoded byte total equals the unencoded
    one: both are the sum of the sizes of the results. *)
Theorem upload_encoded_is_unencoded w files context epochs share workers
    st rs es t st' :
  returns (upload_images w files context epochs share workers) st (rs, es, t) st' ->
  encoded t = unencoded t /\ unencoded t = py_sum (map up_size rs).
Proof.
  intros H. apply upload_images_inv in H
    as (balances & sui & wal & st1 & acc & _ & _ & _ & _ & _ & -> & _ & ->).
  done.
Qed.

Lemma upload_encoded_is_unencoded_witness :
  exists rs es t st',
    returns (upload_images world_dup files_abcd "mainnet" "max" false None)
      no_state (rs, es, t) st' /\
    encoded t = 40 /\ unencoded t = 40 /\ map up_size rs = [10; 10; 10; 10].
Proof.
  do 4 eexists. split; [vm_compute; reflexivity|].
  edestruct (upload_encoded_is_unencoded world_dup files_abcd "mainnet" "max"
               false None no_state) as [He Hu]; [vm_compute; reflexivity|].
  split; [rewrite He, Hu; reflexivity|].
  split; [rewrite Hu; reflexivity | reflexivity].
Defined.

(** ** Selection (C8, C5) *)

Lemma marker_wiped image_paths st p :
  p ∈ image_paths ->
  marker p ∉ fs (after_wipe true image_paths st).
Proof.
  intros Hp. simpl. rewrite elem_of_difference, elem_of_list_to_set.
  intros [_ Hn]. apply Hn. apply list_elem_of_fmap. eauto.
Qed.

Lemma filter_none {A} (f : A -> bool) (l : list A) :
  (forall x, x ∈ l -> f x = false) -> List.filter f l = [].
Proof.
  induction l as [|x l IH]; intros H; simpl; [done|].
  rewrite H by apply list_elem_of_here.
  apply IH. intros y Hy. apply H. by apply list_elem_of_further.
Qed.

(** C8. With both [resume] and [fresh] set, the wipe removes the marker
    of every candidate and the resume filter keeps the candidates that
    have one: nothing is selected, no command is spawned, and the
    results and the errors are empty. *)
Theorem resume_and_fresh_select_nothing w files context epochs share workers
    verify clean st :
  0 < max_workers w workers ->
  tasks_of files true true st = [] /\
  exists t st',
    returns (process_images w files context epochs share true true workers
               verify clean None) st ([], [], t) st' /\
    calls st' = calls st.
Proof.
  intros Hw.
  assert (tasks_of files true true st = []) as Hnone.
  { unfold tasks_of. apply filter_none. intros p Hp. unfold selected.
    apply bool_decide_eq_false. by apply marker_wiped. }
  split; [done|]. do 2 eexists. unfold returns.
  rewrite (process_images_run _ _ _ _ _ _ _ _ _ _ _ Hw).
  rewrite Hnone. simpl. split; [reflexivity|]. by rewrite app_nil_r.
Qed.

Lemma resume_and_fresh_select_nothing_witness :
  tasks_of files_ab true true {| fs := {[marker (img "a")]}; calls := [] |} = [] /\
  exists t st',
    returns (process_images world_5_1 files_ab "mainnet" "max" false true true
               None false false None)
      {| fs := {[marker (img "a")]}; calls := [] |} ([], [], t) st' /\
    calls st' = [].
Proof.
  apply (resume_and_fresh_select_nothing world_5_1 files_ab "mainnet" "max"
           false None false false {| fs := {[marker (img "a")]}; calls := [] |}).
  vm_compute. reflexivity.
Defined.

Lemma filter_all {A} (f : A -> bool) (l : list A) :
  (forall x, x ∈ l -> f x = true) -> List.filter f l = l.
Proof.
  induction l as [|x l IH]; intros H; simpl; [done|].
  rewrite H by apply list_elem_of_here.
  f_equal. apply IH. intros y Hy. apply H. by apply list_elem_of_further.
Qed.

Lemma elem_of_List_filter {A} (f : A -> bool) (l : list A) (x : A) :
  x ∈ List.filter f l <-> x ∈ l /\ f x = true.
Proof. rewrite !list_elem_of_In. apply filter_In. Qed.

Lemma elem_of_written w context epochs share tasks p :
  p ∈ tasks ->
  has_error_key (outcome_of w p context epochs share) = false ->
  marker p ∈ written w context epochs share tasks.
Proof.
  intros Hp Hok. unfold written. rewrite elem_of_list_to_set.
  apply list_elem_of_fmap. exists p. split; [done|].
  apply elem_of_List_filter. split; [done|]. by rewrite Hok.
Qed.

Lemma collect_no_error (tasks : list Path) (f : Path -> sim_dict) :
  snd (collect (map f tasks) [] []) = [] ->
  forall p, p ∈ tasks -> has_error_key (f p) = false.
Proof.
  rewrite collect_spec. simpl.
  induction tasks as [|q tasks IH]; intros H p Hp.
  - by apply elem_of_nil in Hp.
  - simpl in H. apply elem_of_cons in Hp as [->|Hp].
    + destruct (f q); [done | discriminate].
    + apply IH; [|done]. destruct (f q); [done | discriminate].
Qed.

(** C5, as the code has it. After a default-mode run, a second
    default-mode selection (what [select_tasks] returns in the state the
    first run left)
    - with cleanup off, selects the candidates the first run selected and
      left without a marker, and so nothing when the first run recorded
      no error;
    - with cleanup on, selects every candidate again, the first run
      having deleted all the markers at its end. *)
Theorem second_default_selection w files context epochs share workers verify
    clean st rs es t st1 :
  returns (process_images w files context epochs share false false workers
             verify clean None) st (rs, es, t) st1 ->
  returns (@select_tasks base_exn false (List.filter is_image files)) st1
    (tasks_of files false false st1) st1 /\
  (clean = false ->
   (forall p, p ∈ tasks_of files false false st1 <->
              p ∈ tasks_of files false false st /\
              marker p ∉ written w context epochs share
                           (tasks_of files false false st)) /\
   (es = [] -> tasks_of files false false st1 = [])) /\
  (clean = true -> tasks_of files false false st1 = List.filter is_image files).
Proof.
  intros H. split; [unfold returns; by rewrite select_tasks_filter|].
  pose proof (process_images_inv _ _ _ _ _ _ _ _ _ _ _ _ _ _ _ H) as [Hw _].
  unfold returns in H. rewrite (process_images_run _ _ _ _ _ _ _ _ _ _ _ Hw) in H.
  simpl in H. injection H as <- <- _ <-.
  set (tasks := tasks_of files false false st).
  assert (forall p, p ∈ tasks <->
            p ∈ List.filter is_image files /\ marker p ∉ fs st) as Htasks.
  { intros p. unfold tasks, tasks_of, selected. simpl.
    rewrite elem_of_List_filter, negb_true_iff, bool_decide_eq_false. done. }
  split.
  - intros ->.
    assert (forall p, p ∈ tasks_of files false false
                        {| fs := written w context epochs share tasks ∪ fs st;
                           calls := calls st ++
                             map (fun p => walrus_cmd p context epochs share true)
                                 tasks |} <->
                      p ∈ tasks /\ marker p ∉ written w context epochs share tasks)
      as Hsecond.
    { intros p. rewrite Htasks. unfold tasks_of, selected. simpl.
      rewrite elem_of_List_filter, negb_true_iff, bool_decide_eq_false.
      rewrite elem_of_union. tauto. }
    split; [exact Hsecond|].
    intros Hes. unfold tasks_of at 1. apply filter_none. intros p Hp.
    destruct (selected false _ p) eqn:Hsel; [|done]. exfalso.
    assert (p ∈ tasks /\ marker p ∉ written w context epochs share tasks)
      as [Hpt Hnw].
    { apply Hsecond. unfold tasks_of. by apply elem_of_List_filter. }
    apply Hnw. apply elem_of_written; [done|].
    by apply (collect_no_error tasks
                (fun p => outcome_of w p context epochs share)).
  - intros ->. unfold tasks_of at 1. apply filter_all. intros p Hp.
    unfold selected. simpl. rewrite negb_true_iff, bool_decide_eq_false.
    rewrite elem_of_difference, elem_of_list_to_set. intros [_ Hn].
    apply Hn. apply list_elem_of_fmap. eauto.
Qed.

Lemma second_default_selection_witness :
  exists rs es t st1,
    returns (process_images world_dup files_abcd "mainnet" "max" false false false
               None false false None) no_state (rs, es, t) st1 /\
    tasks_of files_abcd false false st1 = [].
Proof.
  do 4 eexists. split; [vm_compute; reflexivity|].
  edestruct (second_default_selection world_dup files_abcd "mainnet" "max"
               false None false false no_state) as (_ & Hoff & _);
    [vm_compute; reflexivity|].
  destruct Hoff as [_ Hnone]; [reflexivity|].
  apply Hnone. reflexivity.
Defined.

(** C5 as stated fails: the second default-mode selection is not empty
    when cleanup is on (the default of the command), nor, with cleanup
    off, when an item of the first run failed. *)
Lemma second_default_selection_not_empty :
  (exists rs t st1,
     returns (process_images world_dup files_abcd "mainnet" "max" false false false
                None false true None) no_state (rs, [], t) st1 /\
     fst (@select_tasks base_exn false (List.filter is_image files_abcd) st1)
       = Ok files_abcd) /\
  (exists rs es t st1,
     returns (process_images world_b_refused files_ab "mainnet" "max" false false
                false None false false None) no_state (rs, es, t) st1 /\
     fst (@select_tasks base_exn false (List.filter is_image files_ab) st1)
       = Ok [img "b"]).
Proof.
  split.
  - do 3 eexists. split; vm_compute; reflexivity.
  - do 4 eexists. split; vm_compute; reflexivity.
Qed.

(** ** One outcome per item (C3) *)

Lemma pick_length {A} (flags : list bool) (xs : list A) :
  length flags = length xs ->
  (length (pick true flags xs) + length (pick false flags xs))%nat = length xs.
Proof.
  revert xs. induction flags as [|f flags IH]; intros [|x xs] Hlen;
    simpl in *; try done.
  specialize (IH xs ltac:(lia)). destruct f; simpl; lia.
Qed.

Lemma one_outcome_each_length rks eks items key_r key_e :
  one_outcome_each rks eks items key_r key_e ->
  (length rks + length eks)%nat = length items.
Proof.
  intros (flags & Hlen & -> & ->). rewrite !length_map. by apply pick_length.
Qed.

Lemma outcome_of_path w p context epochs share :
  match outcome_of w p context epochs share with
  | ResultDict r => img_path r = str p
  | ErrorDict e => image e = str p
  end.
Proof.
  unfold outcome_of, simulate_image, run_walrus_command, spawn, write_json.
  monad_unfold. simpl.
  destruct (subprocess_run w _) as [proc|]; simpl; [|done].
  destruct (rbind (json_loads (stdout proc)) subscript0) as [output|]; simpl; [|done].
  destruct (match output with JArr _ => subscript0 output | _ => Ok output end)
    as [blob|]; simpl; [|done].
  destruct (rbind (getitem blob "blobId") as_str); simpl; [|done].
  destruct (rbind (getitem blob "unencodedSize") as_int); simpl; [|done].
  destruct (rbind (getitem blob "encodedSize") as_int); simpl; [|done].
  destruct (rbind (getitem blob "storageCost") as_int); simpl; [|done].
  destruct (dict_method_get blob "encodingType"); simpl; [|done].
  destruct (writable w (marker p)); simpl; done.
Qed.

Lemma collect_one_outcome_each w context epochs share tasks :
  let ds := map (fun p => outcome_of w p context epochs share) tasks in
  one_outcome_each (map img_path (fst (collect ds [] [])))
                   (map image (snd (collect ds [] []))) tasks str str.
Proof.
  simpl. rewrite collect_spec. simpl.
  exists (map (fun p => negb (has_error_key (outcome_of w p context epochs share)))
              tasks).
  split; [by rewrite length_map|].
  induction tasks as [|p tasks [IHr IHe]]; simpl; [done|].
  pose proof (outcome_of_path w p context epochs share) as Hp.
  destruct (outcome_of w p context epochs share) as [r|e]; simpl.
  - split; [f_equal; [exact Hp | exact IHr] | exact IHe].
  - split; [exact IHr | f_equal; [exact Hp | exact IHe]].
Qed.

(** Closes the cases of [upload_try_spec] in which the body raised. *)
Ltac raised_in_try :=
  do 2 eexists; split; [reflexivity|];
  split; [simpl; try rewrite <- app_assoc; done | intros ? ? [=]].

Section Upload.
Variable w : World.
Variables context epochs : string.
Variable share : bool.

Local Abbreviation dry_cmd := (dry_cmd context epochs share).
Local Abbreviation real_cmd := (real_cmd context epochs share).
Local Abbreviation dry_cost := (dry_cost w context epochs share).
Local Abbreviation admits := (admits w context epochs share).

Lemma upload_try_spec p available st :
  exists r st',
    upload_try w context epochs share p available st = (r, st') /\
    calls st' = calls st ++ dry_cmd p ::
                  (if admits p available then [real_cmd p] else []) /\
    (forall x q, r = Ok (x, q) ->
       up_name x = name p /\
       exists z, dry_cost p = Ok z /\
                 Qle_bool (to_tokens z) available = true /\
                 q = (available - to_tokens z)%Q).
Proof.
  unfold upload_try, admits, dry_cost, run_walrus_command, spawn, save_json,
    write_json, dry_cmd, real_cmd.
  monad_unfold. simpl.
  destruct (subprocess_run w (walrus_cmd p context epochs share true))
    as [proc|]; simpl; [|raised_in_try].
  destruct (rbind (json_loads (stdout proc)) subscript0) as [dry_info|];
    simpl; [|raised_in_try].
  destruct (rbind (getitem dry_info "storageCost") py_int) as [z|];
    simpl; [|raised_in_try].
  destruct (Qle_bool (to_tokens z) available) eqn:Hle; simpl; [|raised_in_try].
  destruct (subprocess_run w (walrus_cmd p context epochs share false))
    as [proc'|]; simpl; [|raised_in_try].
  destruct (rbind (json_loads (stdout proc')) subscript0) as [real_info|]; simpl;
    [|raised_in_try].
  destruct (writable w _); simpl; [|raised_in_try].
  repeat
    (match goal with
     | |- context [match ?r with Ok _ => _ | Raise _ => _ end] =>
         destruct r; simpl
     end; [|raised_in_try]).
  do 2 eexists. split; [reflexivity|].
  split; [simpl; by rewrite <- app_assoc|].
  intros x q [= <- <-]. split; [done|]. eauto.
Qed.

(** One iteration of the loop: it never raises, appends one entry to
    one of the two lists, and lowers the counter by the estimate when
    the entry is a result. *)
Lemma upload_step_spec {E} acc p st :
  exists acc' st',
    @upload_step E w context epochs share acc p st = (Ok acc', st') /\
    calls st' = calls st ++ dry_cmd p ::
                  (if admits p (wal_available acc) then [real_cmd p] else []) /\
    ((exists r z,
        results acc' = results acc ++ [r] /\ errors acc' = errors acc /\
        up_name r = name p /\ dry_cost p = Ok z /\
        admits p (wal_available acc) = true /\
        wal_available acc' = (wal_available acc - to_tokens z)%Q) \/
     (exists err,
        results acc' = results acc /\
        errors acc' = errors acc ++ [{| image := str p; error := err |}] /\
        wal_available acc' = wal_available acc)).
Proof.
  destruct (upload_try_spec p (wal_available acc) st)
    as (r & st' & Htry & Hcalls & Hok).
  unfold upload_step, try_except, bind. rewrite Htry.
  destruct r as [[x q]|err]; simpl.
  - do 2 eexists. split; [reflexivity|]. split; [done|]. left.
    destruct (Hok x q eq_refl) as (Hname & z & Hz & Hle & ->).
    exists x, z. simpl. unfold admits. rewrite Hz. done.
  - do 2 eexists. split; [reflexivity|]. split; [done|]. right.
    exists err. done.
Qed.
End Upload.

Lemma to_tokens_plus (a b : Z) : (to_tokens (a + b) == to_tokens a + to_tokens b)%Q.
Proof. unfold to_tokens, Qdiv. rewrite inject_Z_plus. ring. Qed.


Lemma to_tokens_le (a b : Z) : a <= b -> (to_tokens a <= to_tokens b)%Q.
Proof.
  intros H. unfold to_tokens, Qdiv. apply Qmult_le_compat_r.
  - by rewrite <- Zle_Qle.
  - apply Qinv_le_0_compat. by rewrite <- (Zle_Qle 0).
Qed.


Section UploadLoop.
Variable w : World.
Variables context epochs : string.
Variable share : bool.

Local Abbreviation estimate := (estimate w context epochs share).
Local Abbreviation total := (total w context epochs share).




(** The loop never raises. Each item gets a flag, set when the item
    produced a result; the results are those of the flagged items and
    the errors those of the others, both in order; the counter has lost
    the estimates of the flagged items; every command spawned is a
    client command for one of the items. *)
Lemma upload_loop_spec {E} items acc st :
  exists acc' st' flags extra,
    @upload_loop E w context epochs share items acc st = (Ok acc', st') /\
    length flags = length items /\
    map up_name (results acc') =
      map up_name (results acc) ++ map name (pick true flags items) /\
    map image (errors acc') =
      map image (errors acc) ++ map str (pick false flags items) /\
    (wal_available acc' ==
       wal_available acc - to_tokens (total (pick true flags items)))%Q /\
    calls st' = calls st ++ extra /\
    (forall cmd, cmd ∈ extra ->
       exists q d, q ∈ items /\ cmd = walrus_cmd q context epochs share d).
Proof.
  revert acc st. induction items as [|p items IH]; intros acc st.
  - exists acc, st, [], []. simpl. rewrite !app_nil_r.
    repeat split; try done.
    + unfold total, to_tokens. simpl. unfold Qdiv. ring.
    + intros cmd Hcmd. by apply elem_of_nil in Hcmd.
  - destruct (@upload_step_spec w context epochs share E acc p st)
      as (acc1 & st1 & Hstep & Hcalls1 & Hcase).
    destruct (IH acc1 st1)
      as (acc' & st' & flags & extra & Hloop & Hlen & Hres & Herr & Hcnt
          & Hcalls & Hextra).
    set (step_cmds :=
           dry_cmd context epochs share p ::
             (if admits w context epochs share p (wal_available acc)
              then [real_cmd context epochs share p] else [])) in *.
    assert (forall cmd,
              cmd ∈ step_cmds ++ extra ->
              exists q d, q ∈ p :: items /\
                          cmd = walrus_cmd q context epochs share d) as Hall.
    { intros cmd Hcmd. apply elem_of_app in Hcmd as [Hcmd|Hcmd].
      - exists p. unfold step_cmds in Hcmd.
        apply elem_of_cons in Hcmd as [->|Hcmd].
        + exists true. split; [apply list_elem_of_here | done].
        + destruct (admits _ _ _ _ _ _); [|by apply elem_of_nil in Hcmd].
          apply list_elem_of_singleton in Hcmd as ->.
          exists false. split; [apply list_elem_of_here | done].
      - destruct (Hextra cmd Hcmd) as (q & d & Hq & ->).
        exists q, d. split; [by apply list_elem_of_further | done]. }
    destruct Hcase as [(r & z & Hr & He & Hname & Hz & Hadm & Hav)
                      |(err & Hr & He & Hav)].
    + exists acc', st', (true :: flags), (step_cmds ++ extra).
      simpl. unfold bind. rewrite Hstep.
      split; [done|]. split; [by rewrite Hlen|].
      split; [rewrite Hres, Hr, map_app; simpl;
              by rewrite Hname, <- app_assoc|].
      split; [by rewrite Herr, He|].
      split.
      * rewrite Hcnt, Hav. unfold total at 2. simpl. fold (total (pick true flags items)).
        unfold estimate at 1. rewrite Hz. rewrite to_tokens_plus. ring.
      * split; [|exact Hall].
        rewrite Hcalls, Hcalls1. by rewrite <- app_assoc.
    + exists acc', st', (false :: flags), (step_cmds ++ extra).
      simpl. unfold bind. rewrite Hstep.
      split; [done|]. split; [by rewrite Hlen|].
      split; [by rewrite Hres, Hr|].
      split; [rewrite Herr, He, map_app; simpl; by rewrite <- app_assoc|].
      split; [by rewrite Hcnt, Hav|].
      split; [|exact Hall].
      rewrite Hcalls, Hcalls1. by rewrite <- app_assoc.
Qed.
End UploadLoop.



(** C3. On both paths every selected item yields one outcome, a result
    or an error and not both: whenever the function returns, the results
    are those of a part of the selected items, the errors those of the
    rest, and the two lengths add up to the number of selected items.
    The simulate path does return when the pool size is valid and the
    answers of the client follow its schema. *)
Theorem one_outcome_per_item :
  (forall w files context epochs share resume fresh workers verify clean st
          rs es t st',
     returns (process_images w files context epochs share resume fresh workers
                verify clean None) st (rs, es, t) st' ->
     one_outcome_each (map img_path rs) (map image es)
       (tasks_of files resume fresh st) str str /\
     (length rs + length es)%nat = length (tasks_of files resume fresh st)) /\
  (forall w files context epochs share resume fresh workers verify clean st,
     0 < max_workers w workers ->
     (forall p blob, p ∈ tasks_of files resume fresh st ->
        dry_answer w context epochs share p = Some blob ->
        follows_schema blob = true) ->
     exists rs es t st',
       returns (process_images w files context epochs share resume fresh workers
                  verify clean None) st (rs, es, t) st') /\
  (forall w files context epochs share workers st rs es t st',
     returns (upload_images w files context epochs share workers) st (rs, es, t) st' ->
     one_outcome_each (map up_name rs) (map image es)
       (List.filter is_image files) name str /\
     (length rs + length es)%nat = length (List.filter is_image files)).
Proof.
  split; [|split].
  - intros * H.
    pose proof (process_images_inv _ _ _ _ _ _ _ _ _ _ _ _ _ _ _ H) as [Hw _].
    unfold returns in H.
    rewrite (process_images_run _ _ _ _ _ _ _ _ _ _ _ Hw) in H.
    simpl in H. injection H as <- <- _ _.
    pose proof (collect_one_outcome_each w context epochs share
                  (tasks_of files resume fresh st)) as Hone.
    simpl in Hone. split; [exact Hone|].
    apply one_outcome_each_length in Hone. by rewrite !length_map in Hone.
  - intros * Hw _. do 4 eexists. unfold returns.
    rewrite (process_images_run _ _ _ _ _ _ _ _ _ _ _ Hw). reflexivity.
  - intros * H. apply upload_images_inv in H
      as (balances & sui & wal & st1 & acc & _ & _ & _ & _ & Hloop & -> & -> & _).
    destruct (@upload_loop_spec w context epochs share base_exn
                (List.filter is_image files)
                {| results := []; errors := []; wal_available := wal |} st1)
      as (acc' & st2 & flags & extra & Hl & Hlen & Hres & Herr & _).
    unfold returns in Hloop. rewrite Hloop in Hl. injection Hl as <- <-.
    assert (one_outcome_each (map up_name (results acc)) (map image (errors acc))
              (List.filter is_image files) name str) as Hone.
    { exists flags. done. }
    split; [exact Hone|].
    apply one_outcome_each_length in Hone. by rewrite !length_map in Hone.
Qed.

Lemma one_outcome_per_item_witness :
  (exists rs es t st',
     returns (process_images world_b_refused files_ab "mainnet" "max" false false
                false None false false None) no_state (rs, es, t) st' /\
     (length rs + length es)%nat = 2%nat) /\
  (exists rs es t st',
     returns (upload_images world_5_1 files_ab "mainnet" "max" false None)
       no_state (rs, es, t) st' /\
     (length rs + length es)%nat = 2%nat).
Proof.
  split.
  - edestruct (proj1 (proj2 one_outcome_per_item) world_b_refused files_ab
                 "mainnet" "max" false false false None false false no_state)
      as (rs & es & t & st' & Hrun).
    + vm_compute. reflexivity.
    + intros p blob Hp. change (p ∈ [img "a"; img "b"]) in Hp.
      apply elem_of_cons in Hp as [->|Hp].
      * vm_compute. intros [= <-]. reflexivity.
      * apply list_elem_of_singleton in Hp as ->. vm_compute. discriminate.
    + exists rs, es, t, st'. split; [exact Hrun|].
      exact (proj2 (proj1 one_outcome_per_item _ _ _ _ _ _ _ _ _ _ _ _ _ _ _ Hrun)).
  - do 4 eexists. split; [vm_compute; reflexivity|].
    edestruct (proj2 (proj2 one_outcome_per_item) world_5_1 files_ab "mainnet"
                 "max" false None no_state) as [_ Hlen];
      [vm_compute; reflexivity|].
    exact Hlen.
Defined.

(** ** Pre-flight balance check (C2) *)

(** The check of [upload_images], on the balances it has read: the run
    is abandoned for a SUI balance that is zero or negative, and for a
    WAL balance that is zero, which is also what an absent WAL entry
    reads as. Nothing but the balance query has been spawned then. *)
Lemma preflight_outcome w files context epochs share workers st proc balances
    sui wal :
  subprocess_run w balance_cmd = Some proc ->
  stdout proc = WellFormed balances ->
  get_balances balances = Ok (sui, wal) ->
  let run := upload_images w files context epochs share workers st in
  ((sui <= 0)%Q ->
   run = (Raise (Exc (RuntimeError "❌ SUI balance is missing or zero.")),
          {| fs := fs st; calls := calls st ++ [balance_cmd] |})) /\
  ((0 < sui)%Q -> (wal == 0)%Q ->
   run = (Raise (Exc (RuntimeError "❌ WAL/FROST balance not found.")),
          {| fs := fs st; calls := calls st ++ [balance_cmd] |})) /\
  ((0 < sui)%Q -> ~ (wal == 0)%Q -> exists r st', run = (Ok r, st')).
Proof.
  intros Hrun Hout Hbal. simpl.
  unfold upload_images, get_sui_balances, spawn. fold balance_cmd.
  monad_unfold. simpl. rewrite Hrun. simpl. rewrite Hout. simpl.
  rewrite Hbal. simpl.
  split; [|split].
  - intros Hle. apply Qle_bool_iff in Hle. rewrite Hle, orb_true_r. done.
  - intros Hpos Hz.
    destruct (Qeq_bool sui 0) eqn:Hs0;
      [apply Qeq_bool_iff in Hs0; lra|].
    destruct (Qle_bool sui 0) eqn:Hs1;
      [apply Qle_bool_iff in Hs1; lra|].
    apply Qeq_bool_iff in Hz. rewrite Hz. done.
  - intros Hpos Hnz.
    destruct (Qeq_bool sui 0) eqn:Hs0;
      [apply Qeq_bool_iff in Hs0; lra|].
    destruct (Qle_bool sui 0) eqn:Hs1;
      [apply Qle_bool_iff in Hs1; lra|].
    destruct (Qeq_bool wal 0) eqn:Hw0;
      [apply Qeq_bool_iff in Hw0; done|].
    simpl.
    destruct (@upload_loop_spec w context epochs share base_exn
                (List.filter is_image files)
                {| results := []; errors := []; wal_available := wal |}
                {| fs := fs st; calls := calls st ++ [balance_cmd] |})
      as (acc' & st2 & flags & extra & Hl & _).
    rewrite Hl. eauto.
Qed.

(** An absent WAL entry and a WAL entry of zero read the same. *)
Example get_balances_absent_wal :
  get_balances
    (JArr [JArr [JArr [JObj [("symbol", JStr "SUI")];
                       JArr [JObj [("balance", JStr "1000000000")]]]]])
  = get_balances (balance_json "1000000000" "0").
Proof. reflexivity. Qed.

(** C2, at a WAL balance of exactly zero: the run is abandoned with the
    fatal error before any item is looked at; the only command spawned
    is the balance query, and no error is recorded for the image. *)
Theorem zero_wal_balance_aborts :
  get_balances (balance_json "1000000000" "0") = Ok (to_tokens 1000000000, to_tokens 0) /\
  upload_images world_zero_wal [img "a"] "mainnet" "max" false None no_state =
    (Raise (Exc (RuntimeError "❌ WAL/FROST balance not found.")),
     {| fs := ∅; calls := [balance_cmd] |}).
Proof. split; vm_compute; reflexivity. Qed.

(** ** External client invoker (C4) *)

(** C4, as the code has it. The wrapper does not look at the exit
    status: what it does is decided by the standard output alone. It
    raises when the output is not well-formed JSON and when the parsed
    value has no element 0 (an object, a number, a boolean, null, an
    empty array or an empty string); otherwise it returns element 0 of
    the parsed value: the first element of an array, whatever it is, or
    the first character of a string. *)
Theorem invoker_reads_stdout_only w image_path context epochs share dry_run st proc :
  subprocess_run w (walrus_cmd image_path context epochs share dry_run) = Some proc ->
  let out := fst (run_walrus_command w image_path context epochs share dry_run st) in
  (forall raw, stdout proc = Malformed raw -> out = Raise JSONDecodeError) /\
  (forall j, stdout proc = WellFormed j -> indexable j = false ->
             exists e, out = Raise e) /\
  (forall x rest, stdout proc = WellFormed (JArr (x :: rest)) -> out = Ok x) /\
  (forall c rest, stdout proc = WellFormed (JStr (String c rest)) ->
                  out = Ok (JStr (String c EmptyString))).
Proof.
  intros Hrun. simpl. unfold run_walrus_command, spawn. monad_unfold. simpl.
  rewrite Hrun. simpl.
  split; [|split; [|split]].
  - intros raw ->. done.
  - intros j -> Hj. simpl.
    destruct j as [| | |[|]|[|]|]; simpl in *; try discriminate; eauto.
  - intros x rest ->. done.
  - intros c rest ->. done.
Qed.

Lemma invoker_reads_stdout_only_witness :
  fst (run_walrus_command world_exit_1 (img "a") "mainnet" "max" false true no_state)
  = Ok (blob_json "A" 10 20 1000000000).
Proof.
  edestruct (invoker_reads_stdout_only world_exit_1 (img "a") "mainnet" "max"
               false true no_state) as (_ & _ & Harr & _);
    [vm_compute; reflexivity|].
  apply (Harr _ []). reflexivity.
Defined.

(** C4 as stated fails: a process that exits with a non-zero status and
    prints a JSON array is not an error for the wrapper, and a printed
    JSON string, which has neither an array nor a record, is answered
    with its first character. *)
Lemma nonzero_exit_is_not_raised :
  (exists proc,
     subprocess_run world_exit_1 (walrus_cmd (img "a") "mainnet" "max" false true)
       = Some proc /\
     returncode proc = 1 /\
     fst (run_walrus_command world_exit_1 (img "a") "mainnet" "max" false true
            no_state) = Ok (blob_json "A" 10 20 1000000000)) /\
  fst (run_walrus_command world_prints_string (img "a") "mainnet" "max" false true
         no_state) = Ok (JStr "a").
Proof. split; [eexists; split; [|split]|]; vm_compute; reflexivity. Qed.

(** ** Interruption of a simulate run (C6) *)

(** The second call of [process_images], made by the handler of
    [KeyboardInterrupt], from the state [st] the signal left: it keeps
    every file of [st], and every result it reports is the outcome of a
    fresh call of the client for a candidate that had no marker in [st]. *)
Lemma rerun_after_interrupt w files context epochs share workers verify st :
  0 < max_workers w workers ->
  exists rs es t st',
    returns (process_images w files context epochs share false false workers
               verify false None) st (rs, es, t) st' /\
    fs st ⊆ fs st' /\
    calls st' = calls st ++ map (dry_cmd context epochs share)
                              (tasks_of files false false st) /\
    (forall r, r ∈ rs ->
       exists p, p ∈ List.filter is_image files /\ (marker p ∉ fs st) /\
                 img_path r = str p).
Proof.
  intros Hw. do 4 eexists. unfold returns.
  rewrite (process_images_run _ _ _ _ _ _ _ _ _ _ _ Hw). simpl.
  split; [reflexivity|]. split; [set_solver|]. split; [done|].
  intros r Hr. rewrite collect_spec in Hr. simpl in Hr.
  apply list_elem_of_omap in Hr as (d & Hd & Hsome).
  apply list_elem_of_fmap in Hd as (p & -> & Hp).
  exists p. unfold tasks_of, selected in Hp. simpl in Hp.
  apply elem_of_List_filter in Hp as [Hp Hsel].
  rewrite negb_true_iff, bool_decide_eq_false in Hsel.
  split; [done|]. split; [done|].
  pose proof (outcome_of_path w p context epochs share) as Hpath.
  destruct (outcome_of w p context epochs share); by simplify_eq.
Qed.

(** C6, on two images whose simulation succeeds, the signal arriving
    when the first outcome has been delivered. At the signal the marker
    of [a] is on disk and that of [b] is not. The handler calls
    [process_images] once more; that call simulates [b], and the report
    holds the result of [b] alone: the image whose marker was persisted
    before the signal is absent from it. Both markers are on disk at the
    end. *)
Theorem interrupted_report_holds_the_rest :
  process_images world_dup files_ab "mainnet" "max" false false false None false
    true (Some 1%nat) no_state
  = (Raise KeyboardInterrupt,
     {| fs := {[marker (img "a")]}; calls := [dry_cmd "mainnet" "max" false (img "a")] |})
  /\
  exists report st',
    returns (simulate world_dup files_ab "mainnet" "max" false false false None
               false true true (Some 1%nat) None) no_state report st' /\
    map img_path (rp_results report) = ["images/b.png"] /\
    rp_errors report = [] /\
    totalBlobIds (rp_totals report) = 1 /\
    option_map md_interrupted (rp_metadata report) = Some true /\
    fs st' = {[marker (img "a"); marker (img "b")]} /\
    calls st' = [dry_cmd "mainnet" "max" false (img "a");
                 dry_cmd "mainnet" "max" false (img "b")].
Proof.
  split; [vm_compute; reflexivity|].
  do 2 eexists. split; [vm_compute; reflexivity|].
  repeat split; vm_compute; reflexivity.
Qed.

(** When the signal arrives after both outcomes, both markers are on
    disk and the report is empty. *)
Lemma interrupted_after_all_outcomes :
  exists report st',
    returns (simulate world_dup files_ab "mainnet" "max" false false false None
               false true true (Some 2%nat) None) no_state report st' /\
    rp_results report = [] /\ rp_errors report = [] /\
    fs st' = {[marker (img "a"); marker (img "b")]}.
Proof.
  do 2 eexists. split; [vm_compute; reflexivity|].
  repeat split; vm_compute; reflexivity.
Qed.

(** * Further properties of the code *)

(** ** Reading the wallet listing *)

Lemma get_balances_loop_app l1 l2 s w :
  get_balances_loop (l1 ++ l2) s w =
    rbind (get_balances_loop l1 s w) (fun sw =>
      get_balances_loop l2 (fst sw) (snd sw)).
Proof.
  revert s w. induction l1 as [|g l1 IH]; intros s w; simpl; [done|].
  destruct (unpack2 g) as [[metadata coins]|]; simpl; [|done].
  destruct (symbol_is metadata "SUI") as [[|]|]; simpl; [| |done].
  - destruct (coin_balance coins); simpl; [apply IH | done].
  - destruct (symbol_is metadata "WAL") as [[|]|]; simpl; [| |done].
    + destruct (coin_balance coins); simpl; [apply IH | done].
    + apply IH.
Qed.

Lemma get_balances_loop_cons metadata coins rest s w :
  get_balances_loop (JArr [metadata; coins] :: rest) s w =
    rbind (symbol_is metadata "SUI") (fun is_sui =>
      if is_sui
      then rbind (coin_balance coins) (fun b => get_balances_loop rest b w)
      else rbind (symbol_is metadata "WAL") (fun is_wal =>
             if is_wal
             then rbind (coin_balance coins) (fun b => get_balances_loop rest s b)
             else get_balances_loop rest s w)).
Proof. reflexivity. Qed.

Lemma symbol_is_other kv s :
  dict_get kv "symbol" <> Some (JStr s) ->
  symbol_is (JObj kv) s = Ok false.
Proof.
  intros H. unfold symbol_is. simpl.
  destruct (dict_get kv "symbol") as [[| | |s'| |]|]; try done.
  destruct (String.eqb_spec s' s) as [->|]; done.
Qed.

Lemma symbol_is_same kv s :
  dict_get kv "symbol" = Some (JStr s) ->
  symbol_is (JObj kv) s = Ok true.
Proof. intros H. unfold symbol_is. simpl. rewrite H. by rewrite String.eqb_refl. Qed.

(** Only the first coin object of a token group is read, and only the
    first element of the listing: further coin objects of the same token
    and further top-level elements change nothing. *)
Theorem get_balances_first_coin_only pre metadata c more more' post rest rest' :
  get_balances
    (JArr (JArr (pre ++ JArr [metadata; JArr (c :: more)] :: post) :: rest)) =
  get_balances
    (JArr (JArr (pre ++ JArr [metadata; JArr (c :: more')] :: post) :: rest')).
Proof.
  unfold get_balances. simpl. rewrite !get_balances_loop_app.
  destruct (get_balances_loop pre 0 0) as [[s w]|]; simpl; [|done].
  destruct (symbol_is metadata "SUI") as [[|]|]; simpl; [done| |done].
  destruct (symbol_is metadata "WAL") as [[|]|]; simpl; done.
Qed.

(** A group whose symbol is neither SUI nor WAL is passed over, whatever
    its coin list holds. *)
Theorem get_balances_skips_other_tokens pre kv coins post rest :
  dict_get kv "symbol" <> Some (JStr "SUI") ->
  dict_get kv "symbol" <> Some (JStr "WAL") ->
  get_balances (JArr (JArr (pre ++ JArr [JObj kv; coins] :: post) :: rest)) =
  get_balances (JArr (JArr (pre ++ post) :: rest)).
Proof.
  intros Hsui Hwal. unfold get_balances. cbn [subscript0 iter rbind].
  rewrite !get_balances_loop_app.
  destruct (get_balances_loop pre 0 0) as [[s w]|]; cbn [rbind fst snd]; [|done].
  rewrite get_balances_loop_cons.
  by rewrite (symbol_is_other _ _ Hsui), (symbol_is_other _ _ Hwal).
Qed.

Lemma get_balances_skips_other_tokens_witness :
  get_balances
    (JArr [JArr [JArr [JObj [("symbol", JStr "USDC")]; JNull];
                 JArr [JObj [("symbol", JStr "WAL")];
                       JArr [JObj [("balance", JStr "7")]]]]]) =
  Ok (to_tokens 0, to_tokens 7).
Proof.
  refine (eq_trans
            (get_balances_skips_other_tokens [] [("symbol", JStr "USDC")] JNull
               [JArr [JObj [("symbol", JStr "WAL")];
                      JArr [JObj [("balance", JStr "7")]]]] [] _ _) _);
    [discriminate | discriminate | reflexivity].
Defined.

Lemma get_balances_loop_sui_overwritten mid kv coins post s s' w :
  dict_get kv "symbol" = Some (JStr "SUI") ->
  get_balances_loop (mid ++ JArr [JObj kv; coins] :: post) s w =
  get_balances_loop (mid ++ JArr [JObj kv; coins] :: post) s' w.
Proof.
  intros Hsym. revert s s' w. induction mid as [|g mid IH]; intros s s' w.
  - cbn [app]. rewrite !get_balances_loop_cons.
    by rewrite (symbol_is_same _ _ Hsym).
  - simpl. destruct (unpack2 g) as [[metadata c]|]; simpl; [|done].
    destruct (symbol_is metadata "SUI") as [[|]|]; simpl; [done| |done].
    destruct (symbol_is metadata "WAL") as [[|]|]; simpl; [| |done].
    + destruct (coin_balance c); simpl; [apply IH | done].
    + apply IH.
Qed.

Lemma get_balances_loop_wal_overwritten mid kv coins post s w w' :
  dict_get kv "symbol" = Some (JStr "WAL") ->
  get_balances_loop (mid ++ JArr [JObj kv; coins] :: post) s w =
  get_balances_loop (mid ++ JArr [JObj kv; coins] :: post) s w'.
Proof.
  intros Hsym. revert s w w'. induction mid as [|g mid IH]; intros s w w'.
  - cbn [app]. rewrite !get_balances_loop_cons.
    rewrite symbol_is_other by (rewrite Hsym; discriminate).
    cbn [rbind]. by rewrite (symbol_is_same _ _ Hsym).
  - simpl. destruct (unpack2 g) as [[metadata c]|]; simpl; [|done].
    destruct (symbol_is metadata "SUI") as [[|]|]; simpl; [| |done].
    + destruct (coin_balance c); simpl; [apply IH | done].
    + destruct (symbol_is metadata "WAL") as [[|]|]; simpl; [done| |done].
      apply IH.
Qed.

(** When a token is listed more than once, its last group is the one
    that counts: a readable group of SUI (or of WAL) that is followed,
    anywhere later in the listing, by another group of the same token
    can be taken out of the listing without changing what
    [get_balances] returns or raises. *)
Theorem get_balances_last_group_wins pre kv1 c1 more1 b1 z1 mid kv2 coins2 post
    rest sym :
  sym = "SUI" \/ sym = "WAL" ->
  dict_get kv1 "symbol" = Some (JStr sym) ->
  getitem c1 "balance" = Ok b1 ->
  py_int b1 = Ok z1 ->
  short_numeral b1 = true ->
  dict_get kv2 "symbol" = Some (JStr sym) ->
  get_balances
    (JArr (JArr (pre ++ JArr [JObj kv1; JArr (c1 :: more1)]
                     :: mid ++ JArr [JObj kv2; coins2] :: post) :: rest)) =
  get_balances
    (JArr (JArr (pre ++ mid ++ JArr [JObj kv2; coins2] :: post) :: rest)).
Proof.
  intros Hsym H1 Hb Hz _ H2. unfold get_balances. cbn [subscript0 iter rbind].
  rewrite !get_balances_loop_app.
  destruct (get_balances_loop pre 0 0) as [[s w]|]; cbn [rbind fst snd]; [|done].
  rewrite get_balances_loop_cons.
  assert (coin_balance (JArr (c1 :: more1)) = Ok z1) as Hcoin.
  { unfold coin_balance. cbn [subscript0 rbind]. rewrite Hb. exact Hz. }
  destruct Hsym as [-> | ->].
  - rewrite (symbol_is_same _ _ H1). cbn [rbind]. rewrite Hcoin. cbn [rbind].
    by rewrite (get_balances_loop_sui_overwritten mid kv2 coins2 post z1 s w H2).
  - rewrite symbol_is_other by (rewrite H1; discriminate).
    cbn [rbind]. rewrite (symbol_is_same _ _ H1). cbn [rbind].
    rewrite Hcoin. cbn [rbind].
    by rewrite (get_balances_loop_wal_overwritten mid kv2 coins2 post s z1 w H2).
Qed.

Lemma get_balances_last_group_wins_witness :
  get_balances
    (JArr [JArr [JArr [JObj [("symbol", JStr "SUI")];
                       JArr [JObj [("balance", JStr "5")]]];
                 JArr [JObj [("symbol", JStr "SUI")];
                       JArr [JObj [("balance", JStr "2")]]]]]) =
  Ok (to_tokens 2, to_tokens 0).
Proof.
  refine (eq_trans
            (get_balances_last_group_wins []
               [("symbol", JStr "SUI")] (JObj [("balance", JStr "5")]) []
               (JStr "5") 5 [] [("symbol", JStr "SUI")]
               (JArr [JObj [("balance", JStr "2")]]) [] [] "SUI"
               (or_introl eq_refl) eq_refl eq_refl eq_refl eq_refl eq_refl) _).
  reflexivity.
Defined.

(** ** Eligible files *)

Lemma ascii_lower_idem c : ascii_lower (ascii_lower c) = ascii_lower c.
Proof. destruct c as [[] [] [] [] [] [] [] []]; reflexivity. Qed.

Lemma lower_idem s : lower (lower s) = lower s.
Proof. induction s as [|c s IH]; simpl; [done|]. by rewrite ascii_lower_idem, IH. Qed.

(** Eligibility does not depend on the case of the suffix. *)
Theorem is_image_ignores_case p s :
  is_image (with_suffix p s) = is_image (with_suffix p (lower s)).
Proof. unfold is_image. simpl. by rewrite lower_idem. Qed.

(** The files the program writes (state markers, saved store answers)
    are not eligible: adding them to a directory listing leaves the
    candidates unchanged. *)
Theorem outputs_are_not_candidates files outs :
  (forall o, o ∈ outs ->
     exists p, o = with_suffix p ".json" \/ o = with_suffix p ".stored.json") ->
  List.filter is_image (files ++ outs) = List.filter is_image files.
Proof.
  intros Houts. rewrite List.filter_app.
  rewrite (filter_none is_image outs); [by rewrite app_nil_r|].
  intros o Ho. destruct (Houts o Ho) as (p & [-> | ->]); reflexivity.
Qed.

Lemma outputs_are_not_candidates_witness :
  List.filter is_image
    (files_ab ++ [with_suffix (img "a") ".json";
                  with_suffix (img "b") ".stored.json"]) = files_ab.
Proof.
  refine (eq_trans (outputs_are_not_candidates files_ab _ _) _); [|reflexivity].
  intros o Ho. apply elem_of_cons in Ho as [->|Ho]; [eauto|].
  apply list_elem_of_singleton in Ho as ->. eauto.
Defined.

(** ** The upload path, run *)

(** When the balances cannot be read (the wallet client cannot be
    spawned, prints no JSON, or prints a listing of another shape) the
    exception leaves [upload_images]: no image is looked at, the balance
    query is the only command spawned and no file is written. *)
Theorem upload_aborts_when_balances_unreadable w files context epochs share
    workers st err :
  match subprocess_run w balance_cmd with
  | None => err = OSError
  | Some proc => rbind (json_loads (stdout proc)) get_balances = Raise err
  end ->
  upload_images w files context epochs share workers st =
    (Raise (Exc err), {| fs := fs st; calls := calls st ++ [balance_cmd] |}).
Proof.
  intros H. unfold upload_images, get_sui_balances, spawn. fold balance_cmd.
  monad_unfold. simpl.
  destruct (subprocess_run w balance_cmd) as [proc|]; simpl; [|by subst].
  destruct (json_loads (stdout proc)) as [balances|]; simpl in *;
    [|by simplify_eq].
  by rewrite H.
Qed.

Lemma upload_aborts_when_balances_unreadable_witness :
  upload_images world_nothing_installed files_ab "mainnet" "max" false None no_state
  = (Raise (Exc OSError), {| fs := ∅; calls := [balance_cmd] |}).
Proof.
  apply (upload_aborts_when_balances_unreadable world_nothing_installed files_ab
           "mainnet" "max" false None no_state OSError).
  reflexivity.
Defined.

(** A store that is performed but whose answer has no
    [blobStoreResult.newlyCreated] entry is recorded as an error of the
    item: the counter keeps its value although the store command was
    spawned, and the answer has been saved beside the image. *)
Theorem store_answer_without_newly_created w context epochs share acc p st z
    proc real_info err :
  dry_cost w context epochs share p = Ok z ->
  (to_tokens z <= wal_available acc)%Q ->
  subprocess_run w (real_cmd context epochs share p) = Some proc ->
  rbind (json_loads (stdout proc)) subscript0 = Ok real_info ->
  writable w (stored_path p) = true ->
  rbind (getitem real_info "blobStoreResult")
        (fun r => getitem r "newlyCreated") = Raise err ->
  @upload_step base_exn w context epochs share acc p st =
    (Ok {| results := results acc;
           errors := errors acc ++ [{| image := str p; error := err |}];
           wal_available := wal_available acc |},
     {| fs := {[stored_path p]} ∪ fs st;
        calls := calls st ++ [dry_cmd context epochs share p;
                              real_cmd context epochs share p] |}).
Proof.
  intros Hdry Hle Hrun Hreal Hw Hnc.
  unfold dry_cost, dry_cmd in Hdry.
  destruct (subprocess_run w (walrus_cmd p context epochs share true))
    as [proc0|] eqn:Hrun0; [|done].
  destruct (rbind (json_loads (stdout proc0)) subscript0) as [dry_info|] eqn:Hd;
    simpl in Hdry; [|done].
  apply Qle_bool_iff in Hle. unfold real_cmd in Hrun. unfold stored_path in Hw.
  unfold upload_step, upload_try, run_walrus_command, spawn, save_json,
    write_json, dry_cmd, real_cmd, stored_path.
  monad_unfold. simpl. rewrite Hrun0. simpl. rewrite Hd. simpl.
  rewrite Hdry. simpl. rewrite Hle. simpl. rewrite Hrun. simpl.
  rewrite Hreal. simpl. rewrite Hw. simpl. rewrite Hnc. simpl.
  by rewrite <- app_assoc.
Qed.

Lemma store_answer_without_newly_created_witness :
  exists acc' st',
    @upload_step base_exn world_already_certified "mainnet" "max" false
      {| results := []; errors := []; wal_available := 3 |} (img "a") no_state
    = (Ok acc', st') /\
    results acc' = [] /\
    errors acc' = [{| image := "images/a.png"; error := KeyError "newlyCreated" |}] /\
    wal_available acc' = 3%Q /\
    real_cmd "mainnet" "max" false (img "a") ∈ calls st' /\
    stored_path (img "a") ∈ fs st'.
Proof.
  do 2 eexists. split.
  - eapply (store_answer_without_newly_created world_already_certified
              "mainnet" "max" false _ (img "a") no_state 1000000000).
    + reflexivity.
    + apply Qle_bool_iff. reflexivity.
    + reflexivity.
    + reflexivity.
    + reflexivity.
    + reflexivity.
  - split; [reflexivity|]. split; [reflexivity|]. split; [reflexivity|].
    split; apply (bool_decide_unpack _); vm_compute; exact I.
Defined.

Lemma upload_step_fs {E} w context epochs share acc p st acc' st' :
  @upload_step E w context epochs share acc p st = (Ok acc', st') ->
  fs st' = fs st \/ fs st' = {[stored_path p]} ∪ fs st.
Proof.
  unfold upload_step, upload_try, run_walrus_command, spawn, save_json,
    write_json, stored_path.
  monad_unfold. simpl. intros H.
  repeat
    (match type of H with
     | context [match ?r with Some _ => _ | None => _ end] => destruct r
     | context [match ?r with Ok _ => _ | Raise _ => _ end] => destruct r
     | context [if ?b then _ else _] => destruct b
     end; simpl in H);
    injection H as _ <-; simpl; auto.
Qed.

Lemma upload_loop_fs {E} w context epochs share items acc st acc' st' :
  @upload_loop E w context epochs share items acc st = (Ok acc', st') ->
  fs st ⊆ fs st' /\
  forall f, f ∈ fs st' -> f ∈ fs st \/ exists p, p ∈ items /\ f = stored_path p.
Proof.
  revert acc st. induction items as [|p items IH]; intros acc st H; simpl in H.
  - unfold ret in H. injection H as _ <-. split; [done | auto].
  - unfold bind in H.
    destruct (@upload_step_spec w context epochs share E acc p st)
      as (acc1 & st1 & Hstep & _).
    rewrite Hstep in H. apply IH in H as [Hsub Hnew].
    apply upload_step_fs in Hstep.
    assert (fs st ⊆ fs st1 /\
            forall f, f ∈ fs st1 -> f ∈ fs st \/ f = stored_path p) as [Hs1 Hn1].
    { destruct Hstep as [-> | ->].
      - split; [done | auto].
      - split; [apply union_subseteq_r|].
        intros f Hf. apply elem_of_union in Hf as [Hf|Hf]; [|auto].
        apply elem_of_singleton in Hf. auto. }
    split; [by etrans|].
    intros f Hf. destruct (Hnew f Hf) as [Hf1 | (q & Hq & ->)].
    + destruct (Hn1 f Hf1) as [? | ->]; [auto|].
      right. exists p. split; [apply list_elem_of_here | done].
    + right. exists q. split; [by apply list_elem_of_further | done].
Qed.

(** [upload_images] deletes nothing: the files it leaves are those it
    found and, for some of the candidates, the saved answer of their
    store. *)
Theorem upload_only_adds_stored_answers w files context epochs share workers
    st rs es t st' :
  returns (upload_images w files context epochs share workers) st (rs, es, t) st' ->
  fs st ⊆ fs st' /\
  forall f, f ∈ fs st' ->
    f ∈ fs st \/ exists p, p ∈ List.filter is_image files /\ f = stored_path p.
Proof.
  intros H. apply upload_images_inv in H
    as (balances & sui & wal & st1 & acc & Hbal & _ & _ & _ & Hloop & _).
  assert (fs st1 = fs st) as Hfs.
  { unfold returns, uncaught, get_sui_balances, spawn in Hbal.
    monad_unfold. simpl in Hbal.
    destruct (subprocess_run w _); simpl in Hbal; [|done].
    destruct (json_loads _); simpl in Hbal; [|done].
    by injection Hbal as _ <-. }
  apply upload_loop_fs in Hloop. by rewrite Hfs in Hloop.
Qed.

Lemma upload_only_adds_stored_answers_witness :
  exists rs es t st',
    returns (upload_images world_5_1 files_ab "mainnet" "max" false None)
      no_state (rs, es, t) st' /\
    forall f, f ∈ fs st' ->
      f ∈ fs no_state \/
      exists p, p ∈ List.filter is_image files_ab /\ f = stored_path p.
Proof.
  do 4 eexists. split; [vm_compute; reflexivity|].
  edestruct (upload_only_adds_stored_answers world_5_1 files_ab "mainnet" "max"
               false None no_state) as [_ Hnew]; [vm_compute; reflexivity|].
  exact Hnew.
Defined.





Lemma upload_loop_call_trace {E} w context epochs share items acc st :
  exists acc' st' attempted,
    @upload_loop E w context epochs share items acc st = (Ok acc', st') /\
    length attempted = length items /\
    calls st' = calls st ++ call_trace context epochs share items attempted.
Proof.
  revert acc st. induction items as [|p items IH]; intros acc st.
  - exists acc, st, []. simpl. by rewrite app_nil_r.
  - destruct (@upload_step_spec w context epochs share E acc p st)
      as (acc1 & st1 & Hstep & Hcalls1 & _).
    destruct (IH acc1 st1) as (acc' & st' & attempted & Hloop & Hlen & Hcalls).
    exists acc', st', (admits w context epochs share p (wal_available acc)
                         :: attempted).
    simpl. unfold bind. rewrite Hstep. split; [done|].
    split; [by rewrite Hlen|].
    rewrite Hcalls, Hcalls1. rewrite <- app_assoc. simpl.
    destruct (admits w context epochs share p (wal_available acc)); done.
Qed.

(** The commands of an upload, in order: the balance query, once and
    first; then for each candidate, in the order of the enumeration, its
    dry run, followed by its store when the store is attempted. No store
    is spawned without the dry run of its image just before it. The
    wallet reported in the totals is what that one query read. *)
Theorem upload_call_sequence w files context epochs share workers st rs es t st' :
  returns (upload_images w files context epochs share workers) st (rs, es, t) st' ->
  exists attempted proc balances sui wal,
    length attempted = length (List.filter is_image files) /\
    calls st' = calls st ++ balance_cmd ::
                  call_trace context epochs share (List.filter is_image files)
                    attempted /\
    subprocess_run w balance_cmd = Some proc /\
    json_loads (stdout proc) = Ok balances /\
    get_balances balances = Ok (sui, wal) /\
    wallet t = Some {| sui_balance := sui; wal_balance := wal |}.
Proof.
  intros H. apply upload_images_inv in H
    as (balances & sui & wal & st1 & acc & Hbal & Hget & _ & _ & Hloop & _ & _ & ->).
  unfold returns, uncaught, get_sui_balances, spawn in Hbal. fold balance_cmd in Hbal.
  monad_unfold. simpl in Hbal.
  destruct (subprocess_run w balance_cmd) as [proc|] eqn:Hrun; simpl in Hbal;
    [|done].
  destruct (json_loads (stdout proc)) as [b|] eqn:Hjson; simpl in Hbal; [|done].
  injection Hbal as -> <-.
  destruct (@upload_loop_call_trace base_exn w context epochs share
              (List.filter is_image files)
              {| results := []; errors := []; wal_available := wal |}
              {| fs := fs st; calls := calls st ++ [balance_cmd] |})
    as (acc' & st2 & attempted & Hl & Hlen & Hcalls).
  rewrite Hloop in Hl. injection Hl as <- <-.
  exists attempted, proc, balances, sui, wal.
  split; [done|]. split; [|done].
  rewrite Hcalls. simpl. by rewrite <- app_assoc.
Qed.

Lemma upload_call_sequence_witness :
  exists rs es t st' attempted,
    returns (upload_images world_5_1 files_ab "mainnet" "max" false None)
      no_state (rs, es, t) st' /\
    calls st' = calls no_state ++ balance_cmd ::
                  call_trace "mainnet" "max" false
                    (List.filter is_image files_ab) attempted.
Proof.
  edestruct (upload_call_sequence world_5_1 files_ab "mainnet" "max" false None
               no_state) as (attempted & _ & _ & _ & _ & _ & Hcalls & _);
    [vm_compute; reflexivity|].
  do 4 eexists. exists attempted. split; [vm_compute; reflexivity|].
  exact Hcalls.
Defined.

Lemma upload_loop_negative_counter {E} w context epochs share items acc st acc' st' :
  (wal_available acc < 0)%Q ->
  (forall p z, p ∈ items -> dry_cost w context epochs share p = Ok z -> 0 <= z) ->
  @upload_loop E w context epochs share items acc st = (Ok acc', st') ->
  results acc' = results acc /\
  length (errors acc') = (length (errors acc) + length items)%nat /\
  calls st' = calls st ++ map (dry_cmd context epochs share) items.
Proof.
  revert acc st. induction items as [|p items IH]; intros acc st Hneg Hpos H;
    simpl in H.
  - unfold ret in H. injection H as <- <-. simpl. rewrite app_nil_r.
    split; [done|]. split; [lia | done].
  - unfold bind in H.
    destruct (@upload_step_spec w context epochs share E acc p st)
      as (acc1 & st1 & Hstep & Hcalls1 & Hcase).
    rewrite Hstep in H.
    assert (admits w context epochs share p (wal_available acc) = false) as Hadm.
    { unfold admits.
      destruct (dry_cost w context epochs share p) as [z|] eqn:Hz; [|done].
      destruct (Qle_bool (to_tokens z) (wal_available acc)) eqn:Hle; [|done].
      apply Qle_bool_iff in Hle.
      pose proof (Hpos p z (list_elem_of_here _ _) Hz) as Hz0.
      pose proof (to_tokens_le 0 z Hz0) as Ht.
      assert (to_tokens 0 == 0)%Q as H0 by reflexivity. lra. }
    rewrite Hadm in Hcalls1.
    destruct Hcase as [(r & z & _ & _ & _ & _ & Htrue & _)|(err & Hr & He & Hav)];
      [congruence|].
    apply IH in H as (Hres & Herrs & Hcalls).
    + split; [congruence|]. split.
      * rewrite Herrs, He, length_app. simpl. lia.
      * rewrite Hcalls, Hcalls1. simpl. by rewrite <- app_assoc.
    + by rewrite Hav.
    + intros q z Hq. apply Hpos. by apply list_elem_of_further.
Qed.

(** A negative WAL balance passes the check at the start. When no
    estimate is negative, the run then stores nothing: every candidate
    gets its dry run, none its store, and there is no result. *)
Theorem negative_balance_stores_nothing w files context epochs share workers st
    rs es t st' sui wal :
  returns (upload_images w files context epochs share workers) st (rs, es, t) st' ->
  wallet t = Some {| sui_balance := sui; wal_balance := wal |} ->
  (wal < 0)%Q ->
  (forall p z, p ∈ List.filter is_image files ->
               dry_cost w context epochs share p = Ok z -> 0 <= z) ->
  rs = [] /\
  length es = length (List.filter is_image files) /\
  calls st' = calls st ++ balance_cmd ::
                map (dry_cmd context epochs share) (List.filter is_image files).
Proof.
  intros H Hwallet Hneg Hpos.
  apply upload_images_inv in H
    as (b & sui' & wal' & st1 & acc & Hbal & _ & _ & _ & Hloop & -> & -> & ->).
  simpl in Hwallet. injection Hwallet as <- <-.
  unfold returns in Hloop.
  destruct (upload_loop_negative_counter w context epochs share
              (List.filter is_image files)
              {| results := []; errors := []; wal_available := wal' |}
              st1 acc st' Hneg Hpos Hloop) as (Hres & Herrs & Hc).
  simpl in Hres, Herrs.
  split; [done|]. split; [done|].
  assert (calls st1 = calls st ++ [balance_cmd]) as Hst1.
  { unfold returns, uncaught, get_sui_balances, spawn in Hbal.
    fold balance_cmd in Hbal. monad_unfold. simpl in Hbal.
    destruct (subprocess_run w balance_cmd); simpl in Hbal; [|done].
    destruct (json_loads _); simpl in Hbal; [|done].
    by injection Hbal as _ <-. }
  rewrite Hc, Hst1. by rewrite <- app_assoc.
Qed.

Lemma negative_balance_stores_nothing_witness :
  exists es t st',
    returns (upload_images world_negative_wal [img "a"] "mainnet" "max" false None)
      no_state ([], es, t) st' /\
    length es = 1%nat /\
    calls st' = [balance_cmd; dry_cmd "mainnet" "max" false (img "a")].
Proof.
  assert (exists rs es t st',
            returns (upload_images world_negative_wal [img "a"] "mainnet" "max"
                       false None) no_state (rs, es, t) st')
    as (rs & es & t & st' & Hrun).
  { do 4 eexists. vm_compute. reflexivity. }
  destruct (negative_balance_stores_nothing world_negative_wal [img "a"]
              "mainnet" "max" false None no_state rs es t st'
              (to_tokens 1000000000) (to_tokens (-5)) Hrun)
    as (-> & Hlen & Hcalls).
  - vm_compute in Hrun. by injection Hrun as _ _ <- _.
  - reflexivity.
  - intros p z Hp. change (p ∈ [img "a"]) in Hp.
    apply list_elem_of_singleton in Hp as ->.
    vm_compute. intros [= <-]. discriminate.
  - exists es, t, st'. split; [exact Hrun|]. split; [exact Hlen | exact Hcalls].
Defined.

(** ** The simulate path, its files and its failures *)

(** [simulate_image] never raises and never calls the client twice. It
    creates the state marker of its image exactly when it returns a
    result; when it returns an error the files are as they were. *)
Theorem simulate_image_marker_iff_result w p context epochs share st :
  exists d st',
    @simulate_image base_exn w p context epochs share st = (Ok d, st') /\
    calls st' = calls st ++ [dry_cmd context epochs share p] /\
    (has_error_key d = false -> fs st' = {[marker p]} ∪ fs st) /\
    (has_error_key d = true -> fs st' = fs st).
Proof.
  rewrite simulate_image_run. do 2 eexists. split; [reflexivity|]. simpl.
  split; [done|]. split; intros ->; done.
Qed.

Lemma tasks_of_fresh files st :
  tasks_of files false true st = List.filter is_image files.
Proof.
  unfold tasks_of. apply filter_all. intros p Hp. unfold selected.
  rewrite negb_true_iff. apply bool_decide_eq_false. by apply marker_wiped.
Qed.

(** A fresh run (without resume) that returns has called the client
    exactly once for every candidate, whatever markers were there, and
    has one outcome for each. The order of the calls is that of the
    pool and is not fixed. *)
Theorem fresh_run_processes_every_candidate w files context epochs share workers
    verify clean st rs es t st' :
  returns (process_images w files context epochs share false true workers
             verify clean None) st (rs, es, t) st' ->
  (exists spawned,
     calls st' = calls st ++ spawned /\
     spawned ≡ₚ map (dry_cmd context epochs share) (List.filter is_image files)) /\
  (length rs + length es)%nat = length (List.filter is_image files).
Proof.
  intros H.
  pose proof (process_images_inv _ _ _ _ _ _ _ _ _ _ _ _ _ _ _ H) as [Hw _].
  unfold returns in H. rewrite (process_images_run _ _ _ _ _ _ _ _ _ _ _ Hw) in H.
  rewrite tasks_of_fresh in H. simpl in H. injection H as <- <- _ <-.
  split; [eexists; split; [reflexivity | done]|].
  pose proof (collect_one_outcome_each w context epochs share
                (List.filter is_image files)) as Hone.
  simpl in Hone. apply one_outcome_each_length in Hone.
  by rewrite !length_map in Hone.
Qed.

Lemma fresh_run_processes_every_candidate_witness :
  exists rs es t st' spawned,
    returns (process_images world_dup files_abcd "mainnet" "max" false false true
               None false false None)
      {| fs := {[marker (img "a")]}; calls := [] |} (rs, es, t) st' /\
    calls st' = [] ++ spawned /\
    spawned ≡ₚ map (dry_cmd "mainnet" "max" false) (List.filter is_image files_abcd).
Proof.
  assert (exists rs es t st',
            returns (process_images world_dup files_abcd "mainnet" "max" false
                       false true None false false None)
              {| fs := {[marker (img "a")]}; calls := [] |} (rs, es, t) st')
    as (rs & es & t & st' & Hrun).
  { do 4 eexists. vm_compute. reflexivity. }
  destruct (fresh_run_processes_every_candidate _ _ _ _ _ _ _ _ _ _ _ _ _ Hrun)
    as [(spawned & Hcalls & Hperm) _].
  exists rs, es, t, st', spawned. split; [exact Hrun|].
  split; [exact Hcalls | exact Hperm].
Defined.

(** Resume mode and default mode select complementary parts of the
    candidates: a candidate whose marker exists is selected by resume
    mode alone, one whose marker does not exist by default mode alone.
    Selecting changes nothing. *)
Theorem resume_and_default_partition files st :
  let image_paths := List.filter is_image files in
  exists resumed fresh_ones,
    returns (@select_tasks base_exn true image_paths) st resumed st /\
    returns (@select_tasks base_exn false image_paths) st fresh_ones st /\
    (forall p, p ∈ image_paths ->
       (marker p ∈ fs st /\ p ∈ resumed /\ (p ∉ fresh_ones)) \/
       ((marker p ∉ fs st) /\ p ∈ fresh_ones /\ (p ∉ resumed))) /\
    (length resumed + length fresh_ones)%nat = length image_paths.
Proof.
  simpl. do 2 eexists. unfold returns. rewrite !select_tasks_filter.
  split; [reflexivity|]. split; [reflexivity|]. split.
  - intros p Hp.
    destruct (decide (marker p ∈ fs st)) as [Hin|Hout].
    + left. split; [exact Hin|]. split.
      * apply elem_of_List_filter. split; [exact Hp|].
        unfold selected. by rewrite (bool_decide_eq_true_2 _ Hin).
      * intros Hsel. apply elem_of_List_filter in Hsel as [_ Hsel].
        unfold selected in Hsel.
        rewrite (bool_decide_eq_true_2 _ Hin) in Hsel. discriminate.
    + right. split; [exact Hout|]. split.
      * apply elem_of_List_filter. split; [exact Hp|].
        unfold selected. by rewrite (bool_decide_eq_false_2 _ Hout).
      * intros Hsel. apply elem_of_List_filter in Hsel as [_ Hsel].
        unfold selected in Hsel.
        rewrite (bool_decide_eq_false_2 _ Hout) in Hsel. discriminate.
  - induction (List.filter is_image files) as [|p ps IH]; simpl; [done|].
    destruct (bool_decide (marker p ∈ fs st)); simpl; lia.
Qed.

(** With [clean] set, a run that returns leaves no marker of any
    candidate and no other change to the files: the markers that were
    there before the run are deleted with those it wrote. *)
Theorem clean_removes_every_marker w files context epochs share resume fresh
    workers verify st rs es t st' :
  returns (process_images w files context epochs share resume fresh workers
             verify true None) st (rs, es, t) st' ->
  fs st' = fs st ∖ markers_of files.
Proof.
  intros H.
  pose proof (process_images_inv _ _ _ _ _ _ _ _ _ _ _ _ _ _ _ H) as [Hw _].
  unfold returns in H. rewrite (process_images_run _ _ _ _ _ _ _ _ _ _ _ Hw) in H.
  simpl in H. injection H as _ _ _ <-. simpl. unfold markers_of.
  apply set_eq. intros f.
  rewrite !elem_of_difference, elem_of_union.
  assert (f ∈ written w context epochs share (tasks_of files resume fresh st) ->
          f ∈ (list_to_set (map marker (List.filter is_image files)) : gset string))
    as Hwritten.
  { unfold written, tasks_of. rewrite !elem_of_list_to_set.
    intros Hf. apply list_elem_of_fmap in Hf as (p & -> & Hp).
    apply elem_of_List_filter in Hp as [Hp _].
    apply elem_of_List_filter in Hp as [Hp _].
    apply list_elem_of_fmap. eauto. }
  destruct fresh; simpl.
  - rewrite elem_of_difference. tauto.
  - tauto.
Qed.

Lemma clean_removes_every_marker_witness :
  exists rs es t st',
    returns (process_images world_dup files_ab "mainnet" "max" false true false
               None false true None)
      {| fs := {[marker (img "a"); "images/notes.txt"]}; calls := [] |}
      (rs, es, t) st' /\
    fs st' = {[marker (img "a"); "images/notes.txt"]} ∖ markers_of files_ab.
Proof.
  assert (exists rs es t st',
            returns (process_images world_dup files_ab "mainnet" "max" false true
                       false None false true None)
              {| fs := {[marker (img "a"); "images/notes.txt"]}; calls := [] |}
              (rs, es, t) st') as (rs & es & t & st' & Hrun).
  { do 4 eexists. vm_compute. reflexivity. }
  exists rs, es, t, st'. split; [exact Hrun|].
  exact (clean_removes_every_marker _ _ _ _ _ _ _ _ _ _ _ _ _ _ Hrun).
Defined.

(** A pool size that is not positive fails the run with [ValueError]
    before any call of the client, but after the fresh wipe: the markers
    are already deleted when the error leaves. *)
Theorem invalid_pool_size_fails_after_wipe w files context epochs share resume
    fresh workers verify clean sigint st :
  max_workers w workers <= 0 ->
  process_images w files context epochs share resume fresh workers verify clean
    sigint st =
    (Raise (Exc ValueError),
     {| fs := if fresh then fs st ∖ markers_of files else fs st;
        calls := calls st |}).
Proof.
  intros Hw. unfold process_images, markers_of.
  set (image_paths := List.filter is_image files).
  unfold bind at 1.
  assert ((if fresh
           then @unlink_existing base_exn
                  (elements (list_to_set (map marker image_paths) : gset string))
           else ret tt) st = (Ok tt, after_wipe fresh image_paths st)) as ->.
  { unfold after_wipe. destruct fresh; [|done].
    rewrite unlink_existing_fs. by rewrite list_to_set_elements_gset. }
  unfold bind at 1. rewrite select_tasks_filter.
  destruct (max_workers w workers <=? 0) eqn:Hle; [|lia].
  unfold raise, after_wipe. destruct fresh; [done|]. by destruct st.
Qed.

Lemma invalid_pool_size_fails_after_wipe_witness :
  process_images world_dup files_ab "mainnet" "max" false false true (Some (-1))
    false false None {| fs := {[marker (img "a")]}; calls := [] |} =
  (Raise (Exc ValueError),
   {| fs := {[marker (img "a")]} ∖ markers_of files_ab; calls := [] |}).
Proof.
  refine (eq_trans
            (invalid_pool_size_fails_after_wipe world_dup files_ab "mainnet"
               "max" false false true (Some (-1)) false false None
               {| fs := {[marker (img "a")]}; calls := [] |} _) _).
  - vm_compute. discriminate.
  - reflexivity.
Defined.

(** ** Interruption and the commands *)

Lemma process_images_interrupted w files context epochs share resume fresh
    workers verify clean k st :
  0 < max_workers w workers ->
  let image_paths := List.filter is_image files in
  let done := firstn k (tasks_of files resume fresh st) in
  process_images w files context epochs share resume fresh workers verify clean
    (Some k) st =
    (Raise KeyboardInterrupt,
     {| fs := written w context epochs share done
              ∪ fs (after_wipe fresh image_paths st);
        calls := calls st ++ map (dry_cmd context epochs share) done |}).
Proof.
  intros Hw. simpl. unfold process_images, tasks_of.
  set (image_paths := List.filter is_image files).
  unfold bind at 1.
  assert ((if fresh
           then @unlink_existing base_exn
                  (elements (list_to_set (map marker image_paths) : gset string))
           else ret tt) st = (Ok tt, after_wipe fresh image_paths st)) as ->.
  { unfold after_wipe. destruct fresh; [|done].
    rewrite unlink_existing_fs. by rewrite list_to_set_elements_gset. }
  unfold bind at 1. rewrite select_tasks_filter.
  destruct (max_workers w workers <=? 0) eqn:Hle; [lia|].
  unfold bind at 1. unfold bind at 1. rewrite executor_map_run.
  unfold raise. simpl. destruct fresh; done.
Qed.

(** A run that is interrupted raises [KeyboardInterrupt]: the results
    delivered so far are lost to the caller, the markers they wrote stay
    on disk, and the cleanup asked for by [clean] is not performed. *)
Theorem interrupted_run_skips_cleanup w files context epochs share resume fresh
    workers verify clean k st :
  0 < max_workers w workers ->
  exists st',
    process_images w files context epochs share resume fresh workers verify clean
      (Some k) st = (Raise KeyboardInterrupt, st') /\
    forall p, p ∈ firstn k (tasks_of files resume fresh st) ->
      has_error_key (outcome_of w p context epochs share) = false ->
      marker p ∈ fs st'.
Proof.
  intros Hw. eexists.
  rewrite (process_images_interrupted _ _ _ _ _ _ _ _ _ _ _ _ Hw).
  split; [reflexivity|]. simpl.
  intros p Hp Hok. apply elem_of_union. left. by apply elem_of_written.
Qed.

Lemma interrupted_run_skips_cleanup_witness :
  exists st',
    process_images world_dup files_ab "mainnet" "max" false false false None false
      true (Some 1%nat) no_state = (Raise KeyboardInterrupt, st') /\
    marker (img "a") ∈ fs st'.
Proof.
  edestruct (interrupted_run_skips_cleanup world_dup files_ab "mainnet" "max"
               false false false None false true 1%nat no_state)
    as (st' & Hrun & Hmarkers); [vm_compute; reflexivity|].
  exists st'. split; [exact Hrun|].
  apply Hmarkers; [|vm_compute; reflexivity].
  vm_compute. apply list_elem_of_here.
Defined.

(** The handler of [simulate] is not protected: when the signal comes
    again during the second call of [process_images], [simulate] ends
    with [KeyboardInterrupt] and hands nothing to the report. *)
Theorem second_interrupt_propagates w files context epochs share resume fresh
    workers verify clean log k k' st :
  which w "walrus" = true ->
  which w "sui" = true ->
  0 < max_workers w workers ->
  fst (simulate w files context epochs share resume fresh workers verify clean
         log (Some k) (Some k') st) = Raise KeyboardInterrupt.
Proof.
  intros Hwalrus Hsui Hw.
  unfold simulate, ensure_walrus_installed, ensure_sui_installed.
  rewrite Hwalrus, Hsui. unfold bind at 1. unfold ret at 1.
  unfold bind at 1. unfold ret at 1.
  unfold bind at 1. unfold except_KeyboardInterrupt.
  rewrite (process_images_interrupted _ _ _ _ _ _ _ _ _ _ _ _ Hw).
  rewrite (process_images_interrupted _ _ _ _ _ _ _ _ _ _ _ _ Hw).
  reflexivity.
Qed.

Lemma second_interrupt_propagates_witness :
  fst (simulate world_dup files_ab "mainnet" "max" false false false None false
         true true (Some 1%nat) (Some 0%nat) no_state) = Raise KeyboardInterrupt.
Proof.
  apply second_interrupt_propagates; vm_compute; reflexivity.
Defined.

(** The three commands begin by looking for the two programs, [walrus]
    first. When one is missing they end with exit code 1, having spawned
    nothing and changed no file; [check] succeeds when both are there. *)
Theorem commands_require_both_programs w st :
  (which w "walrus" = true -> which w "sui" = true -> check w st = (Ok tt, st)) /\
  (which w "walrus" = false \/ which w "sui" = false ->
   check w st = (Raise (Exit 1), st) /\
   (forall files context epochs share resume fresh workers verify clean log
           sigint sigint',
      simulate w files context epochs share resume fresh workers verify clean
        log sigint sigint' st = (Raise (Exit 1), st)) /\
   (forall files context epochs share workers,
      upload w files context epochs share workers st = (Raise (Exit 1), st))).
Proof.
  unfold check, simulate, upload, ensure_walrus_installed, ensure_sui_installed.
  split.
  - intros -> ->. reflexivity.
  - intros [H|H].
    + rewrite H. repeat split.
    + rewrite H. destruct (which w "walrus"); repeat split.
Qed.

Lemma commands_require_both_programs_witness :
  check world_dup no_state = (Ok tt, no_state) /\
  upload world_nothing_installed files_ab "mainnet" "max" false None no_state
  = (Raise (Exit 1), no_state).
Proof.
  split.
  - apply (proj1 (commands_require_both_programs world_dup no_state));
      reflexivity.
  - apply (proj2 (commands_require_both_programs world_nothing_installed no_state)).
    left. reflexivity.
Defined.
